(** * Receipt processor: the points rule engine and the receipt store

    A shallow embedding of [main.go]: the [Receipt] and [Item] records, the
    scoring function [calculatePoints], the in-memory store ([receipts],
    [points]) and the two HTTP handlers.

    Go values are modelled as follows.
    - [string] is a byte sequence: Stdlib's [string] (a list of 8-bit [ascii]).
    - [int] is the 64-bit two's complement integer: a [Z] kept in range by
      [wrap64] after every addition and multiplication.
    - [float64] is IEEE 754 binary64: [spec_float] with [prec = 53] and
      [emax = 1024]; arithmetic is the correctly rounded arithmetic of
      [SpecFloat].
    - [map[string]T] is [gmap string T].
    - [fmt.Printf] appends a structured line to the standard output of the
      process, which is part of the modelled program state.

    The functions of the Go standard library that [calculatePoints] calls
    ([strings.HasSuffix], [strings.TrimSpace], [strconv.ParseFloat],
    [math.Mod], [math.Ceil], [time.Parse], the [Time] accessors and the
    regular expression [[a-zA-Z0-9]]) are modelled after their Go
    implementation, one module per package.

    What lies outside the program is an input of the model:
    - the string that [uuid.New().String()] returns is an argument of
      [handleProcessReceipt];
    - the result of decoding the request body as JSON is a field of the
      request;
    - the conversion [int(f)] of a [float64] that does not fit an [int],
      which the language leaves to the implementation, is that of amd64.

    The handlers read and write the two maps only while they hold [mutex],
    once per call; a call of a handler is therefore one step on the two
    maps, and the service is a sequence of such steps.  The lines of
    [calculatePoints] are printed before the lock is taken: the standard
    output of the model is that of calls served one after the other, and
    says nothing of how the lines of overlapping calls interleave. *)

From Stdlib Require Import ZArith Lia Bool List Ascii String SpecFloat.
From stdpp Require Import gmap strings.
Import ListNotations.

Open Scope Z_scope.

(** ** Bytes *)

(** The numeric value of a byte of a Go string. *)
Definition byte (c : ascii) : Z := Z.of_N (N_of_ascii c).

Definition bytes (s : string) : list Z := map byte (list_ascii_of_string s).

(** [lo <= b && b <= hi] *)
Definition between (lo b hi : Z) : bool := (lo <=? b) && (b <=? hi).

(** [len(s)] as a Go [int]. *)
Definition len (s : string) : Z := Z.of_nat (String.length s).

(** The slice expression [s[i:]] for [0 <= i <= len(s)]. *)
Fixpoint drop_string (n : nat) (s : string) : string :=
  match n, s with
  | O, _ => s
  | S n', String _ s' => drop_string n' s'
  | S _, EmptyString => EmptyString
  end.

(** ** Package [unicode/utf8] *)

Module utf8.

Definition RuneError : Z := 65533.
Definition RuneSelf : Z := 128.
Definition UTFMax : nat := 4.

(** Continuation bytes lie in [locb, hicb]. *)
Definition locb : Z := 128.
Definition hicb : Z := 191.

(** The table [first] together with [acceptRanges]: for a leading byte, the
    length of the encoding and the range accepted for the second byte;
    [None] for the bytes marked [xx] (never the start of a valid encoding)
    and for ASCII, which [DecodeRuneInString] treats before using the
    table entry. *)
Definition first (s0 : Z) : option (nat * Z * Z) :=
  if between 194 s0 223 then Some (2%nat, locb, hicb)
  else if s0 =? 224 then Some (3%nat, 160, hicb)
  else if between 225 s0 236 then Some (3%nat, locb, hicb)
  else if s0 =? 237 then Some (3%nat, locb, 159)
  else if between 238 s0 239 then Some (3%nat, locb, hicb)
  else if s0 =? 240 then Some (4%nat, 144, hicb)
  else if between 241 s0 243 then Some (4%nat, locb, hicb)
  else if s0 =? 244 then Some (4%nat, locb, 143)
  else None.

(** [DecodeRuneInString]: the first rune of a byte sequence and its width in
    bytes; [(RuneError, 0)] on the empty sequence and [(RuneError, 1)] on an
    invalid encoding. *)
Definition DecodeRune (s : list Z) : Z * nat :=
  match s with
  | [] => (RuneError, 0%nat)
  | s0 :: t =>
    if s0 <? RuneSelf then (s0, 1%nat)
    else match first s0 with
    | None => (RuneError, 1%nat)
    | Some (sz, lo, hi) =>
      if (length s <? sz)%nat then (RuneError, 1%nat)
      else match t with
      | [] => (RuneError, 1%nat)
      | s1 :: t1 =>
        if negb (between lo s1 hi) then (RuneError, 1%nat)
        else if (sz <=? 2)%nat
        then (Z.lor (Z.shiftl (Z.land s0 31) 6) (Z.land s1 63), 2%nat)
        else match t1 with
        | [] => (RuneError, 1%nat)
        | s2 :: t2 =>
          if negb (between locb s2 hicb) then (RuneError, 1%nat)
          else if (sz <=? 3)%nat
          then (Z.lor (Z.lor (Z.shiftl (Z.land s0 15) 12)
                             (Z.shiftl (Z.land s1 63) 6))
                      (Z.land s2 63), 3%nat)
          else match t2 with
          | [] => (RuneError, 1%nat)
          | s3 :: _ =>
            if negb (between locb s3 hicb) then (RuneError, 1%nat)
            else (Z.lor (Z.lor (Z.lor (Z.shiftl (Z.land s0 7) 18)
                                      (Z.shiftl (Z.land s1 63) 12))
                               (Z.shiftl (Z.land s2 63) 6))
                        (Z.land s3 63), 4%nat)
          end
        end
      end
    end
  end.

(** [RuneStart(b)]: the byte is not a continuation byte. *)
Definition RuneStart (b : Z) : bool := negb (Z.land b 192 =? 128).

(** The backwards scan of [DecodeLastRuneInString] over the reversed
    sequence: [k] bytes before the last one have been skipped, [n] more may
    be inspected; the result is the number of bytes from the rune start
    found to the end of the string. *)
Fixpoint findStart (n : nat) (k : nat) (r : list Z) : option nat :=
  match n, r with
  | S n', b :: r' =>
    if RuneStart b then Some (S k) else findStart n' (S k) r'
  | _, _ => None
  end.

(** [DecodeLastRuneInString], on the reversed byte sequence [r] (last byte
    first).  At most [UTFMax - 1] bytes before the last one are inspected;
    when no rune start is among them, or the rune decoded at the start found
    does not end at the end of the string, the result is [(RuneError, 1)]. *)
Definition DecodeLastRune (r : list Z) : Z * nat :=
  match r with
  | [] => (RuneError, 0%nat)
  | b :: r' =>
    if b <? RuneSelf then (b, 1%nat)
    else match findStart (UTFMax - 1) 1 r' with
    | None => (RuneError, 1%nat)
    | Some w =>
      let '(c, size) := DecodeRune (rev (firstn w r)) in
      if (size =? w)%nat then (c, size) else (RuneError, 1%nat)
    end
  end.

End utf8.

(** ** Package [unicode] *)

Module unicode.

(** [unicode.IsSpace]: the Latin-1 spaces and the code points with the
    property [White_Space]. *)
Definition IsSpace (r : Z) : bool :=
  if r <=? 255 then
    between 9 r 13 || (r =? 32) || (r =? 133) || (r =? 160)
  else
    (r =? 5760) || between 8192 r 8202 || (r =? 8232) || (r =? 8233)
    || (r =? 8239) || (r =? 8287) || (r =? 12288).

End unicode.

(** ** Package [strings] *)

Module strings.

(** [strings.HasSuffix(s, suffix)]:
    [len(s) >= len(suffix) && s[len(s)-len(suffix):] == suffix]. *)
Definition HasSuffix (s suffix : string) : bool :=
  (String.length suffix <=? String.length s)%nat
  && String.eqb (drop_string (String.length s - String.length suffix) s) suffix.

(** The table [asciiSpace]. *)
Definition asciiSpace (c : Z) : bool :=
  (c =? 9) || (c =? 10) || (c =? 11) || (c =? 12) || (c =? 13) || (c =? 32).

(** [TrimLeftFunc(s, unicode.IsSpace)]: drop leading runes while they are
    spaces.  [fuel] bounds the number of runes, each of which is at least one
    byte wide. *)
Fixpoint trimLeftSpaces (fuel : nat) (s : list Z) : list Z :=
  match fuel with
  | O => s
  | S fuel' =>
    match s with
    | [] => []
    | _ =>
      let '(r, size) := utf8.DecodeRune s in
      if unicode.IsSpace r then trimLeftSpaces fuel' (skipn size s) else s
    end
  end.

Definition TrimLeftSpace (s : list Z) : list Z := trimLeftSpaces (length s) s.

(** [lastIndexFunc(s, unicode.IsSpace, false)] on the reversed byte
    sequence: decode runes from the end and drop them while they are spaces.
    The result is [s[0:j]] reversed, where the last rune of [s[0:j]] is the
    last rune of [s] that is not a space; it is empty when
    [lastIndexFunc] returns [-1]. *)
Fixpoint trimRightSpaces (fuel : nat) (r : list Z) : list Z :=
  match fuel with
  | O => r
  | S fuel' =>
    match r with
    | [] => []
    | _ =>
      let '(c, size) := utf8.DecodeLastRune r in
      if unicode.IsSpace c then trimRightSpaces fuel' (skipn size r) else r
    end
  end.

(** [TrimRightFunc(s, unicode.IsSpace)]: with [i] the index where the last
    rune that is not a space starts, [s[0:i+wid]] where [wid] is the width
    of the rune decoded at [s[i:]] when [s[i]] is not ASCII, and [1]
    otherwise. *)
Definition TrimRightSpace (s : list Z) : list Z :=
  let r := trimRightSpaces (length s) (rev s) in
  match r with
  | [] => []
  | _ =>
    let '(_, size) := utf8.DecodeLastRune r in
    let i := (length r - size)%nat in
    match nth_error s i with
    | Some b =>
      if utf8.RuneSelf <=? b
      then let '(_, wid) := utf8.DecodeRune (skipn i s) in firstn (i + wid) s
      else firstn (i + 1) s
    | None => firstn (i + 1) s
    end
  end.

(** [TrimFunc(s, unicode.IsSpace)] *)
Definition TrimFuncSpace (s : list Z) : list Z :=
  TrimRightSpace (TrimLeftSpace s).

(** The first loop of [TrimSpace]: skip ASCII spaces from the left.  At the
    first byte that is not ASCII the function returns [TrimFunc] of the rest
    ([inl]); otherwise the loop ends with [s[start:]] ([inr]). *)
Fixpoint trimSpaceStart (s : list Z) : list Z + list Z :=
  match s with
  | [] => inr []
  | c :: s' =>
    if utf8.RuneSelf <=? c then inl (TrimFuncSpace s)
    else if asciiSpace c then trimSpaceStart s'
    else inr s
  end.

(** The second loop of [TrimSpace], on [s[start:stop]] reversed: skip ASCII
    spaces from the right.  At the first byte that is not ASCII the function
    returns [TrimRightFunc(s[start:stop])]; otherwise the loop ends with
    [s[start:stop]].  The result is not reversed. *)
Fixpoint trimSpaceStop (r : list Z) : list Z :=
  match r with
  | [] => []
  | c :: r' =>
    if utf8.RuneSelf <=? c then TrimRightSpace (rev r)
    else if asciiSpace c then trimSpaceStop r'
    else rev r
  end.

Definition string_of_bytes (l : list Z) : string :=
  string_of_list_ascii (map (fun b => ascii_of_N (Z.to_N b)) l).

(** [strings.TrimSpace(s)] *)
Definition TrimSpace (s : string) : string :=
  string_of_bytes
    match trimSpaceStart (bytes s) with
    | inl t => t
    | inr rest => trimSpaceStop (rev rest)
    end.

End strings.

(** ** Package [strconv] *)

Module strconv.

(** The [Err] field of a [*NumError]. *)
Inductive error := ErrSyntax | ErrRange.

(** binary64 *)
Definition prec : Z := 53.
Definition emax : Z := 1024.

(** [lower(c)]: [c | ('x' - 'X')]. *)
Definition lower (c : Z) : Z := Z.lor c 32.

(** [commonPrefixLenIgnoreCase(s, prefix)], [prefix] being in lower case. *)
Fixpoint commonPrefixLenIgnoreCase (s prefix : list Z) : nat :=
  match s, prefix with
  | c :: s', p :: prefix' =>
    let c := if between 65 c 90 then c + 32 else c in
    if c =? p then S (commonPrefixLenIgnoreCase s' prefix') else O
  | _, _ => O
  end.

(** [special(s)]: the prefixes [inf], [infinity] (with an optional sign)
    and [nan] (without one), in any case; the value and the number of bytes
    read. *)
Definition special (s : list Z) : option (spec_float * nat) :=
  let infinity (sign : bool) (nsign : nat) (s : list Z) :=
    let n := commonPrefixLenIgnoreCase s (bytes "infinity") in
    let n := if (3 <? n)%nat && (n <? 8)%nat then 3%nat else n in
    if (n =? 3)%nat || (n =? 8)%nat
    then Some (S754_infinity sign, (nsign + n)%nat) else None in
  match s with
  | [] => None
  | c :: s' =>
    if c =? 43 then infinity false 1%nat s'
    else if c =? 45 then infinity true 1%nat s'
    else if (c =? 105) || (c =? 73) then infinity false 0%nat s
    else if (c =? 110) || (c =? 78) then
      if (commonPrefixLenIgnoreCase s (bytes "nan") =? 3)%nat
      then Some (S754_nan, 3%nat) else None
    else None
  end.

(** [underscoreOK(s)]: underscores appear only between digits or between a
    base prefix and a digit.  [saw] is the last byte class seen. *)
Inductive saw := SawStart | SawDigit | SawUnderscore | SawOther.

Fixpoint underscoreLoop (hex : bool) (sw : saw) (s : list Z) : bool :=
  match s with
  | [] => match sw with SawUnderscore => false | _ => true end
  | c :: s' =>
    if between 48 c 57 || (hex && between 97 (lower c) 102)
    then underscoreLoop hex SawDigit s'
    else if c =? 95 then
      match sw with
      | SawDigit => underscoreLoop hex SawUnderscore s'
      | _ => false
      end
    else
      match sw with
      | SawUnderscore => false
      | _ => underscoreLoop hex SawOther s'
      end
  end.

Definition underscoreOK (s : list Z) : bool :=
  let s := match s with
           | c :: s' => if (c =? 45) || (c =? 43) then s' else s
           | [] => s
           end in
  match s with
  | c0 :: c1 :: s' =>
    if (c0 =? 48) && ((lower c1 =? 98) || (lower c1 =? 111) || (lower c1 =? 120))
    then underscoreLoop (lower c1 =? 120) SawDigit s'
    else underscoreLoop false SawStart s
  | _ => underscoreLoop false SawStart s
  end.

(** The local variables of the digit loop of [readFloat].  [mant] holds all
    the significant digits read ([nd] of them); Go keeps the first 19 (16 in
    base 16) in [mantissa] with a flag [trunc] for the rest, and reads the
    digits again, in [decimal.set], when they do not determine the result. *)
Record scan := Scan {
  mant : Z;
  nd : Z;
  dp : Z;
  sawdot : bool;
  sawdigits : bool;
  underscores : bool
}.

(** The digit loop of [readFloat]: the state at the first byte that is not
    part of the mantissa, and the bytes from there on. *)
Fixpoint readDigits (base16 : bool) (s : list Z) (st : scan) : scan * list Z :=
  match s with
  | [] => (st, [])
  | c :: s' =>
    if c =? 95 then
      readDigits base16 s'
        (Scan (mant st) (nd st) (dp st) (sawdot st) (sawdigits st) true)
    else if c =? 46 then
      if sawdot st then (st, s)
      else readDigits base16 s'
             (Scan (mant st) (nd st) (nd st) true (sawdigits st) (underscores st))
    else if between 48 c 57 then
      if (c =? 48) && (nd st =? 0) then
        readDigits base16 s'
          (Scan (mant st) (nd st) (dp st - 1) (sawdot st) true (underscores st))
      else
        readDigits base16 s'
          (Scan (mant st * (if base16 then 16 else 10) + (c - 48)) (nd st + 1)
                (dp st) (sawdot st) true (underscores st))
    else if base16 && between 97 (lower c) 102 then
      readDigits base16 s'
        (Scan (mant st * 16 + (lower c - 97 + 10)) (nd st + 1)
              (dp st) (sawdot st) true (underscores st))
    else (st, s)
  end.

(** The digits of the exponent: [e] stops growing once it has reached 10000;
    an underscore is skipped and recorded. *)
Fixpoint readExponent (s : list Z) (e : Z) (us : bool) : Z * bool * list Z :=
  match s with
  | [] => (e, us, [])
  | c :: s' =>
    if c =? 95 then readExponent s' e true
    else if between 48 c 57 then
      readExponent s' (if e <? 10000 then e * 10 + (c - 48) else e) us
    else (e, us, s)
  end.

(** What [readFloat] returns when [ok]: the sign, the base, the significant
    digits as an integer, their number, and the position of the point
    relative to the first significant digit (in bits in base 16), the
    exponent included. *)
Record number := Number {
  neg : bool;
  hex : bool;
  digits : Z;
  ndigits : Z;
  point : Z
}.

(** [readFloat(s)]: [None] when not [ok], otherwise the number read and the
    bytes that follow it. *)
Definition readFloat (s : list Z) : option (number * list Z) :=
  match s with
  | [] => None
  | c :: s' =>
    let '(neg, s1) :=
      if c =? 43 then (false, s') else if c =? 45 then (true, s') else (false, s) in
    let '(base16, s2) :=
      match s1 with
      | c0 :: c1 :: s'' =>
        if (2 <? length s1)%nat && (c0 =? 48) && (lower c1 =? 120)
        then (true, s'') else (false, s1)
      | _ => (false, s1)
      end in
    let '(st, s3) := readDigits base16 s2 (Scan 0 0 0 false false false) in
    if negb (sawdigits st) then None
    else
      let dp := if sawdot st then dp st else nd st in
      let '(dp, ndMant) := if base16 then (dp * 4, nd st * 4) else (dp, nd st) in
      let expChar := if base16 then 112 else 101 in
      let finish (dp : Z) (us : bool) (rest : list Z) :=
        if us && negb (underscoreOK (firstn (length s - length rest) s))
        then None
        else Some (Number neg base16 (mant st) ndMant dp, rest) in
      match s3 with
      | c :: s4 =>
        if lower c =? expChar then
          match s4 with
          | [] => None
          | c' :: s5 =>
            let '(esign, s6) :=
              if c' =? 43 then (1, s5) else if c' =? 45 then (-1, s5) else (1, s4) in
            match s6 with
            | [] => None
            | d :: _ =>
              if negb (between 48 d 57) then None
              else
                let '(e, us, rest) := readExponent s6 0 (underscores st) in
                finish (dp + e * esign) us rest
            end
          end
        else if base16 then None
        else finish dp (underscores st) s3
      | [] => if base16 then None else finish dp (underscores st) s3
      end
  end.

Definition is_infinity (f : spec_float) : bool :=
  match f with S754_infinity _ => true | _ => false end.

(** The decimal conversion ([decimal.floatBits], and the fast paths that agree
    with it): the float nearest to [0.d1d2...dn * 10^dp], ties to even, and
    whether it overflowed.  The obvious cases are decided first, as in Go. *)
Definition decimalToFloat (n : number) : spec_float * bool :=
  if digits n =? 0 then (S754_zero (neg n), false)
  else if 310 <? point n then (S754_infinity (neg n), true)
  else if point n <? -330 then (S754_zero (neg n), false)
  else
    let e10 := point n - ndigits n in
    let f :=
      if 0 <=? e10
      then binary_round prec emax (neg n) (Z.to_pos (digits n * 10 ^ e10)) 0
      else
        let '(q, e, l) :=
          SFdiv_core_binary prec emax (digits n) 0 (10 ^ (- e10)) 0 in
        binary_round_aux prec emax (neg n) q e l in
    (f, is_infinity f).

(** [atofHex]: the float nearest to [mantissa * 2^exp], ties to even, and
    whether it overflowed. *)
Definition atofHex (n : number) : spec_float * bool :=
  if digits n =? 0 then (S754_zero (neg n), false)
  else
    let f := binary_round prec emax (neg n) (Z.to_pos (digits n))
                          (point n - ndigits n) in
    (f, is_infinity f).

(** [atof64(s)]: the value, the bytes left unread and the error. *)
Definition atof64 (s : list Z) : spec_float * list Z * option error :=
  match special s with
  | Some (val, n) => (val, skipn n s, None)
  | None =>
    match readFloat s with
    | None => (S754_zero false, s, Some ErrSyntax)
    | Some (n, rest) =>
      let '(f, ovf) := if hex n then atofHex n else decimalToFloat n in
      (f, rest, if ovf then Some ErrRange else None)
    end
  end.

(** [strconv.ParseFloat(s, 64)]: the whole string has to be read. *)
Definition ParseFloat (s : string) : spec_float * option error :=
  let '(f, rest, err) := atof64 (bytes s) in
  match rest, err with
  | _ :: _, None | _ :: _, Some ErrRange => (S754_zero false, Some ErrSyntax)
  | _, _ => (f, err)
  end.

End strconv.

(** ** Package [math] *)

Module math.

Import strconv.

(** [math.Mod(x, y)]: the floating-point remainder of [x/y], which is exact.
    NaN when [y] is zero or [x] is infinite or one of them is NaN; [x] when
    [y] is infinite; otherwise the result has the sign of [x] and a
    magnitude below that of [y]. *)
Definition Mod (x y : spec_float) : spec_float :=
  match x, y with
  | S754_nan, _ | _, S754_nan => S754_nan
  | S754_infinity _, _ => S754_nan
  | _, S754_zero _ => S754_nan
  | _, S754_infinity _ => x
  | S754_zero _, _ => x
  | S754_finite sx mx ex, S754_finite _ my ey =>
    let e := Z.min ex ey in
    let r := (Zpos mx * 2 ^ (ex - e)) mod (Zpos my * 2 ^ (ey - e)) in
    binary_normalize prec emax (cond_Zopp sx r) e sx
  end.

(** [math.Ceil(x)]: the least integer value greater than or equal to [x];
    zeros, infinities and NaN are returned unchanged, and a result that is
    zero keeps the sign of [x]. *)
Definition Ceil (x : spec_float) : spec_float :=
  match x with
  | S754_finite s m e =>
    if 0 <=? e then x
    else binary_normalize prec emax
           (- ((- cond_Zopp s (Zpos m)) / 2 ^ (- e))) 0 s
  | _ => x
  end.

End math.

(** ** The type [int] and the conversion [int(f)] *)

Definition minInt : Z := - 2 ^ 63.
Definition maxInt : Z := 2 ^ 63 - 1.

(** Two's complement wrap-around of the 64-bit [int]. *)
Definition wrap64 (z : Z) : Z := (z + 2 ^ 63) mod 2 ^ 64 - 2 ^ 63.

Definition add64 (a b : Z) : Z := wrap64 (a + b).
Definition mul64 (a b : Z) : Z := wrap64 (a * b).

(** The conversion [int(f)] of a [float64]: the fraction is discarded
    (truncation towards zero).  When the value does not fit the Go
    specification leaves the result to the implementation; this is the result
    on amd64, where the conversion instruction yields the least [int] for
    NaN, the infinities and every value out of range. *)
Definition int_of_float64 (f : spec_float) : Z :=
  match f with
  | S754_zero _ => 0
  | S754_finite s m e =>
    let t := if 0 <=? e then cond_Zopp s (Zpos m * 2 ^ e)
             else Z.quot (cond_Zopp s (Zpos m)) (2 ^ (- e)) in
    if (minInt <=? t) && (t <=? maxInt) then t else minInt
  | _ => minInt
  end.

(** ** Package [time] *)

Module time.

(** A [Time] in UTC without a fraction of a second: the number of seconds
    since January 1, year 1, 00:00:00 UTC.  The zero [Time] is that
    instant. *)
Record Time := mkTime { sec : Z }.

Definition zeroTime : Time := mkTime 0.

Inductive error := ParseError.

Definition secondsPerMinute : Z := 60.
Definition secondsPerHour : Z := 60 * secondsPerMinute.
Definition secondsPerDay : Z := 24 * secondsPerHour.
Definition daysPer400Years : Z := 365 * 400 + 97.
Definition daysPer100Years : Z := 365 * 100 + 24.
Definition daysPer4Years : Z := 365 * 4 + 1.

(** [daysBefore[m]]: the number of days in a non-leap year before month
    [m + 1]. *)
Definition daysBefore (m : Z) : Z :=
  nth (Z.to_nat m) [0; 31; 59; 90; 120; 151; 181; 212; 243; 273; 304; 334; 365] 0.

Definition isLeap (year : Z) : bool :=
  (year mod 4 =? 0) && (negb (year mod 100 =? 0) || (year mod 400 =? 0)).

Definition daysIn (m year : Z) : Z :=
  if (m =? 2) && isLeap year then 29 else daysBefore m - daysBefore (m - 1).

(** [daysSinceEpoch(year)], counted from year 1: whole 400-year, 100-year
    and 4-year cycles, then single years.  Go counts from a year that
    differs from year 1 by a multiple of 400. *)
Definition daysSinceEpoch (year : Z) : Z :=
  let y := year - 1 in
  let n := y / 400 in
  let y := y - 400 * n in
  let d := daysPer400Years * n in
  let n := y / 100 in
  let y := y - 100 * n in
  let d := d + daysPer100Years * n in
  let n := y / 4 in
  let y := y - 4 * n in
  let d := d + daysPer4Years * n in
  d + 365 * y.

(** [time.Date(year, month, day, hour, min, 0, 0, time.UTC)] for arguments in
    their normal ranges, which is how [Parse] calls it. *)
Definition Date (year month day hour min : Z) : Time :=
  let d := daysSinceEpoch year in
  let d := d + daysBefore (month - 1) in
  let d := if isLeap year && (3 <=? month) then d + 1 else d in
  let d := d + (day - 1) in
  mkTime (d * secondsPerDay + hour * secondsPerHour + min * secondsPerMinute).

(** [absDate]: the year, the month and the day of the month of an
    instant. *)
Definition absDate (t : Time) : Z * Z * Z :=
  let d := sec t / secondsPerDay in
  let n := d / daysPer400Years in
  let y := 400 * n in
  let d := d - daysPer400Years * n in
  let n := d / daysPer100Years in
  let n := n - Z.shiftr n 2 in
  let y := y + 100 * n in
  let d := d - daysPer100Years * n in
  let n := d / daysPer4Years in
  let y := y + 4 * n in
  let d := d - daysPer4Years * n in
  let n := d / 365 in
  let n := n - Z.shiftr n 2 in
  let y := y + n in
  let d := d - 365 * n in
  let year := y + 1 in
  let day := d in
  if isLeap year && (day =? 31 + 29 - 1) then (year, 2, 29)
  else
    let day := if isLeap year && (31 + 29 - 1 <? day) then day - 1 else day in
    let month := day / 31 in
    let e := daysBefore (month + 1) in
    let '(month, begin) :=
      if e <=? day then (month + 1, e) else (month, daysBefore month) in
    (year, month + 1, day - begin + 1).

(** [t.Day()] *)
Definition Day (t : Time) : Z := snd (absDate t).

(** [t.Hour()] *)
Definition Hour (t : Time) : Z := (sec t mod secondsPerDay) / secondsPerHour.

(** [t.Minute()] *)
Definition Minute (t : Time) : Z := (sec t mod secondsPerHour) / secondsPerMinute.

(** The pieces into which [nextStdChunk] cuts the two layouts of the
    program: a literal byte that the value has to repeat, or a field. *)
Inductive chunk :=
| lit (c : Z)
| stdLongYear        (* 2006 *)
| stdZeroMonth       (* 01 *)
| stdZeroDay         (* 02 *)
| stdHour            (* 15 *)
| stdZeroMinute.     (* 04 *)

(** The layout ["2006-01-02"]. *)
Definition layoutDate : list chunk :=
  [stdLongYear; lit 45; stdZeroMonth; lit 45; stdZeroDay].

(** The layout ["15:04"]. *)
Definition layoutTime : list chunk := [stdHour; lit 58; stdZeroMinute].

Definition isDigit (c : Z) : bool := between 48 c 57.

(** [getnum(s, fixed)]: a number of one or two digits, of two when [fixed]. *)
Definition getnum (s : list Z) (fixed : bool) : option (Z * list Z) :=
  match s with
  | c0 :: s' =>
    if negb (isDigit c0) then None
    else match s' with
    | c1 :: s'' =>
      if isDigit c1 then Some ((c0 - 48) * 10 + (c1 - 48), s'')
      else if fixed then None else Some (c0 - 48, s')
    | [] => if fixed then None else Some (c0 - 48, s')
    end
  | [] => None
  end.

(** The variables that [Parse] fills in, with their initial values below. *)
Record fields := mkFields {
  year : Z; month : Z; day : Z; hour : Z; min : Z
}.

Definition noFields : fields := mkFields 0 (-1) (-1) 0 0.

(** The loop of [Parse]: each chunk of the layout consumes its part of the
    value; [None] on the first error (a literal that does not match, a
    field that is not a number, a number out of range, text left over). *)
Fixpoint parseChunks (layout : list chunk) (value : list Z) (f : fields)
  : option fields :=
  match layout with
  | [] => match value with [] => Some f | _ => None end
  | lit c :: layout' =>
    match value with
    | v :: value' => if v =? c then parseChunks layout' value' f else None
    | [] => None
    end
  | stdLongYear :: layout' =>
    match value with
    | c0 :: c1 :: c2 :: c3 :: value' =>
      if isDigit c0 && isDigit c1 && isDigit c2 && isDigit c3 then
        parseChunks layout' value'
          (mkFields ((c0 - 48) * 1000 + (c1 - 48) * 100 + (c2 - 48) * 10 + (c3 - 48))
                    (month f) (day f) (hour f) (min f))
      else None
    | _ => None
    end
  | stdZeroMonth :: layout' =>
    match getnum value true with
    | Some (m, value') =>
      if (m <=? 0) || (12 <? m) then None
      else parseChunks layout' value'
             (mkFields (year f) m (day f) (hour f) (min f))
    | None => None
    end
  | stdZeroDay :: layout' =>
    match getnum value true with
    | Some (d, value') =>
      parseChunks layout' value' (mkFields (year f) (month f) d (hour f) (min f))
    | None => None
    end
  | stdHour :: layout' =>
    match getnum value false with
    | Some (h, value') =>
      if (h <? 0) || (24 <=? h) then None
      else parseChunks layout' value'
             (mkFields (year f) (month f) (day f) h (min f))
    | None => None
    end
  | stdZeroMinute :: layout' =>
    match getnum value true with
    | Some (m, value') =>
      if (m <? 0) || (60 <=? m) then None
      else parseChunks layout' value'
             (mkFields (year f) (month f) (day f) (hour f) m)
    | None => None
    end
  end.

(** [time.Parse(layout, value)]: on every error the zero [Time] is returned
    with the error.  A month or a day that the layout does not mention is 1;
    the day has to exist in its month. *)
Definition Parse (layout : list chunk) (value : string) : Time * option error :=
  match parseChunks layout (bytes value) noFields with
  | None => (zeroTime, Some ParseError)
  | Some f =>
    let month := if month f <? 0 then 1 else month f in
    let day := if day f <? 0 then 1 else day f in
    if (day <? 1) || (daysIn month (year f) <? day)
    then (zeroTime, Some ParseError)
    else (Date (year f) month day (hour f) (min f), None)
  end.

End time.

(** ** Package [regexp] *)

Module regexp.

(** The one kind of expression the program compiles: a character class, as
    the list of its ranges. *)
Inductive Regexp := CharClass (ranges : list (Z * Z)).

(** [regexp.MustCompile(`[a-zA-Z0-9]`)] *)
Definition alnum : Regexp := CharClass [(97, 122); (65, 90); (48, 57)].

Definition matches (re : Regexp) (c : Z) : bool :=
  let 'CharClass ranges := re in
  existsb (fun '(lo, hi) => between lo c hi) ranges.

(** [re.FindAllString(s, -1)]: all the matches, from left to right.  A match
    of a class of ASCII characters is one byte, and a byte below 128 is
    always a character of its own in UTF-8, valid or not. *)
Fixpoint FindAllString (re : Regexp) (s : string) : list string :=
  match s with
  | EmptyString => []
  | String c s' =>
    if matches re (byte c)
    then String c EmptyString :: FindAllString re s'
    else FindAllString re s'
  end.

End regexp.

(** ** The program: data *)

Record Item := mkItem {
  ShortDescription : string;
  Price : string
}.

Record Receipt := mkReceipt {
  Retailer : string;
  PurchaseDate : string;
  PurchaseTime : string;
  Items : list Item;
  Total : string
}.

(** An operand of [fmt.Printf]. *)
Inductive arg := ArgInt (n : Z) | ArgString (s : string).

(** A call of [fmt.Printf]: the format, as spelled in the source, and the
    operands. *)
Record line := mkLine { format : string; args : list arg }.

(** The state of the process: the two package-level maps and what has been
    written to the standard output.  The handlers touch the maps only
    between [mutex.Lock()] and [mutex.Unlock()], so each handler call is
    one atomic step on this state. *)
Record World := mkWorld {
  receipts : gmap string Receipt;
  points : gmap string Z;
  stdout : list line
}.

(** Computations on the state of the process. *)
Definition M (A : Type) : Type := World -> A * World.

Definition ret {A : Type} (a : A) : M A := fun w => (a, w).

Definition bind {A B : Type} (m : M A) (k : A -> M B) : M B :=
  fun w => let '(a, w') := m w in k a w'.

Notation "x <- m ;; k" := (bind m (fun x => k))
  (at level 100, m at next level, right associativity).
Notation "m ;; k" := (bind m (fun _ => k))
  (at level 100, right associativity).

Module fmt.

Definition Printf (format : string) (args : list arg) : M unit :=
  fun w => (tt, mkWorld (receipts w) (points w) (stdout w ++ [mkLine format args])).

End fmt.

(** [len] of a slice. *)
Definition len_slice {A : Type} (l : list A) : Z := Z.of_nat (length l).

(** The constants [0.2], [0.25] and [0] as [float64]. *)
Definition f0_2 : spec_float := S754_finite false 7205759403792794 (-55).
Definition f0_25 : spec_float := S754_finite false 4503599627370496 (-54).
Definition f0 : spec_float := S754_zero false.

(** ** The program: [calculatePoints] *)

(** The loop of rule 5 over [receipt.Items], from the value of [rule5Points]
    on entry to its value on exit. *)
Fixpoint rule5Loop (items : list Item) (rule5Points : Z) : M Z :=
  match items with
  | [] => ret rule5Points
  | item :: items' =>
    let descriptionLength := len (strings.TrimSpace (ShortDescription item)) in
    if Z.rem descriptionLength 3 =? 0 then
      let price := fst (strconv.ParseFloat (Price item)) in
      let itemPoints :=
        int_of_float64 (math.Ceil (SFmul strconv.prec strconv.emax price f0_2)) in
      let rule5Points := add64 rule5Points itemPoints in
      fmt.Printf "Rule 5: +%d points for item description (%s)\n"
                 [ArgInt itemPoints; ArgString (ShortDescription item)] ;;
      rule5Loop items' rule5Points
    else rule5Loop items' rule5Points
  end.

Definition calculatePoints (receipt : Receipt) : M Z :=
  let points := 0 in
  (* Rule 1 *)
  let re := regexp.alnum in
  let rule1Points := len_slice (regexp.FindAllString re (Retailer receipt)) in
  let points := add64 points rule1Points in
  fmt.Printf "Rule 1: %d points for retailer name (%s)\n"
             [ArgInt rule1Points; ArgString (Retailer receipt)] ;;
  (* Rule 2 *)
  let rule2Points := 0 in
  let '(rule2Points, points) :=
    if strings.HasSuffix (Total receipt) ".00"
    then (50, add64 points 50) else (rule2Points, points) in
  fmt.Printf "Rule 2: %d points for total (%s)\n"
             [ArgInt rule2Points; ArgString (Total receipt)] ;;
  (* Rule 3 *)
  let total := fst (strconv.ParseFloat (Total receipt)) in
  let rule3Points := 0 in
  let '(rule3Points, points) :=
    if SFeqb (math.Mod total f0_25) f0
    then (25, add64 points 25) else (rule3Points, points) in
  fmt.Printf "Rule 3: %d points for total (%s)\n"
             [ArgInt rule3Points; ArgString (Total receipt)] ;;
  (* Rule 4 *)
  let rule4Points := mul64 (Z.quot (len_slice (Items receipt)) 2) 5 in
  let points := add64 points rule4Points in
  fmt.Printf "Rule 4: %d points for %d items\n"
             [ArgInt rule4Points; ArgInt (len_slice (Items receipt))] ;;
  (* Rule 5 *)
  let rule5Points := 0 in
  rule5Points <- rule5Loop (Items receipt) rule5Points ;;
  let points := add64 points rule5Points in
  (* Rule 7 *)
  let rule7Points := 0 in
  let purchaseDate := fst (time.Parse time.layoutDate (PurchaseDate receipt)) in
  let '(rule7Points, points) :=
    if negb (Z.rem (time.Day purchaseDate) 2 =? 0)
    then (6, add64 points 6) else (rule7Points, points) in
  fmt.Printf "Rule 7: %d points for odd purchase date (%s)\n"
             [ArgInt rule7Points; ArgString (PurchaseDate receipt)] ;;
  (* Rule 8 *)
  let rule8Points := 0 in
  let purchaseTime := fst (time.Parse time.layoutTime (PurchaseTime receipt)) in
  let '(rule8Points, points) :=
    if (time.Hour purchaseTime =? 14)
       || ((time.Hour purchaseTime =? 15) && (time.Minute purchaseTime <? 60))
    then (10, add64 points 10) else (rule8Points, points) in
  fmt.Printf "Rule 8: %d points for purchase time (%s)\n"
             [ArgInt rule8Points; ArgString (PurchaseTime receipt)] ;;
  fmt.Printf "Total points: %d\n" [ArgInt points] ;;
  ret points.

(** ** The program: the HTTP handlers *)

Record PointsResponse := mkPointsResponse { Points : Z }.

Record IDResponse := mkIDResponse { ID : string }.

Module http.

Definition MethodGet : string := "GET".
Definition MethodPost : string := "POST".

Definition StatusOK : Z := 200.
Definition StatusBadRequest : Z := 400.
Definition StatusNotFound : Z := 404.
Definition StatusMethodNotAllowed : Z := 405.

(** What a handler reads of a request: the method, the result of decoding
    the body as a JSON [Receipt] ([None] when [Decode] returns an error) and
    the variables that the router took from the path ([mux.Vars]). *)
Record Request := mkRequest {
  Method : string;
  Decode : option Receipt;
  Vars : gmap string string
}.

(** What a handler writes to the [ResponseWriter]. *)
Inductive Response :=
| Error (message : string) (code : Z)
| EncodeID (code : Z) (contentType : string) (v : IDResponse)
| EncodePoints (code : Z) (contentType : string) (v : PointsResponse).

Definition StatusCode (r : Response) : Z :=
  match r with
  | Error _ code => code
  | EncodeID code _ _ => code
  | EncodePoints code _ _ => code
  end.

End http.

(** The critical section of [handleProcessReceipt]. *)
Definition store (id : string) (receipt : Receipt) (calculatedPoints : Z) : M unit :=
  fun w => (tt, mkWorld (<[id := receipt]> (receipts w))
                        (<[id := calculatedPoints]> (points w))
                        (stdout w)).

(** The critical section of [handleGetPoints]: [points[id]] with its
    presence flag. *)
Definition load (id : string) : M (option Z) :=
  fun w => (points w !! id, w).

(** [handleProcessReceipt]; [uuid] is the string that
    [uuid.New().String()] returns in this call. *)
Definition handleProcessReceipt (uuid : string) (r : http.Request) : M http.Response :=
  if negb (String.eqb (http.Method r) http.MethodPost) then
    ret (http.Error "Method not allowed" http.StatusMethodNotAllowed)
  else
    match http.Decode r with
    | None => ret (http.Error "Invalid request payload" http.StatusBadRequest)
    | Some receipt =>
      let id := uuid in
      calculatedPoints <- calculatePoints receipt ;;
      store id receipt calculatedPoints ;;
      ret (http.EncodeID http.StatusOK "application/json" (mkIDResponse id))
    end.

(** [handleGetPoints]; a variable that the router did not set reads as the
    empty string. *)
Definition handleGetPoints (r : http.Request) : M http.Response :=
  if negb (String.eqb (http.Method r) http.MethodGet) then
    ret (http.Error "Method not allowed" http.StatusMethodNotAllowed)
  else
    let id := default EmptyString (http.Vars r !! "id"%string) in
    found <- load id ;;
    match found with
    | None => ret (http.Error "No receipt found for that ID" http.StatusNotFound)
    | Some calculatedPoints =>
      ret (http.EncodePoints http.StatusOK "application/json"
             (mkPointsResponse calculatedPoints))
    end.

(** ** The service as a sequence of handler calls *)

(** One request served: a submission, with the identifier generated for it,
    or a fetch. *)
Inductive call :=
| Submit (uuid : string) (r : http.Request)
| Fetch (r : http.Request).

Definition serve (c : call) : M http.Response :=
  match c with
  | Submit uuid r => handleProcessReceipt uuid r
  | Fetch r => handleGetPoints r
  end.

(** The state after serving the calls in order. *)
Fixpoint serveAll (cs : list call) (w : World) : World :=
  match cs with
  | [] => w
  | c :: cs' => serveAll cs' (snd (serve c w))
  end.

(** The state of the process when [main] starts serving. *)
Definition initial : World := mkWorld ∅ ∅ [].

(** The identifier that a call issues: that of a submission which is
    answered with an identifier. *)
Definition issued (c : call) : option string :=
  match c with
  | Submit uuid r =>
    if String.eqb (http.Method r) http.MethodPost
    then match http.Decode r with Some _ => Some uuid | None => None end
    else None
  | Fetch _ => None
  end.

(** The identifiers issued by a sequence of calls. *)
Definition issuedBy (cs : list call) : list string := omap issued cs.

(** The generated identifiers are unique: every identifier issued is absent
    from the store when it is generated. *)
Fixpoint uniqueIds (cs : list call) (w : World) : Prop :=
  match cs with
  | [] => True
  | c :: cs' =>
    match issued c with
    | Some id => points w !! id = None
    | None => True
    end /\ uniqueIds cs' (snd (serve c w))
  end.

(** ** The contributions of the rules *)

(** The value of [rule1Points]. *)
Definition rule1Points (retailer : string) : Z :=
  len_slice (regexp.FindAllString regexp.alnum retailer).

(** The value of [rule2Points] when it is printed. *)
Definition rule2Points (total : string) : Z :=
  if strings.HasSuffix total ".00" then 50 else 0.

(** The test of rule 3: [math.Mod(total, 0.25) == 0]. *)
Definition multipleOfQuarter (total : string) : bool :=
  SFeqb (math.Mod (fst (strconv.ParseFloat total)) f0_25) f0.

(** The value of [rule3Points] when it is printed. *)
Definition rule3Points (total : string) : Z :=
  if multipleOfQuarter total then 25 else 0.

(** [floor(len(items) / 2) * 5], not wrapped. *)
Definition rule4Exact (items : list Item) : Z :=
  Z.quot (len_slice items) 2 * 5.

(** The value of [itemPoints] for an item that passes the test of rule 5. *)
Definition bonus (item : Item) : Z :=
  int_of_float64
    (math.Ceil (SFmul strconv.prec strconv.emax
                      (fst (strconv.ParseFloat (Price item))) f0_2)).

(** What the loop of rule 5 adds to [rule5Points] for an item. *)
Definition itemPoints (item : Item) : Z :=
  if Z.rem (len (strings.TrimSpace (ShortDescription item))) 3 =? 0
  then bonus item else 0.

(** A price that [strconv.ParseFloat] reads as a number from 0 up to, not
    including, [2^60]: a zero, or a mantissa [m] and an exponent [e] with
    [m * 2^e < 2^60].  A price that is not well-formed is read as 0. *)
Definition priceInRange (price : string) : bool :=
  match fst (strconv.ParseFloat price) with
  | S754_zero _ => true
  | S754_finite false m e => Zpos m <? 2 ^ (60 - e)
  | _ => false
  end.

(** The sum of what the loop of rule 5 adds, not wrapped. *)
Definition rule5Exact (items : list Item) : Z :=
  fold_right (fun item acc => itemPoints item + acc) 0 items.

(** The lines that the loop of rule 5 prints. *)
Definition rule5Lines (items : list Item) : list line :=
  flat_map (fun item =>
    if Z.rem (len (strings.TrimSpace (ShortDescription item))) 3 =? 0
    then [mkLine "Rule 5: +%d points for item description (%s)\n"
                 [ArgInt (bonus item); ArgString (ShortDescription item)]]
    else []) items.

(** The value of [rule7Points] when it is printed. *)
Definition rule7Points (purchaseDate : string) : Z :=
  if negb (Z.rem (time.Day (fst (time.Parse time.layoutDate purchaseDate))) 2 =? 0)
  then 6 else 0.

(** The value of [rule8Points] when it is printed. *)
Definition rule8Points (purchaseTime : string) : Z :=
  let t := fst (time.Parse time.layoutTime purchaseTime) in
  if (time.Hour t =? 14) || ((time.Hour t =? 15) && (time.Minute t <? 60))
  then 10 else 0.

(** The sum of the contributions of the rules, not wrapped. *)
Definition exactScore (receipt : Receipt) : Z :=
  rule1Points (Retailer receipt)
  + rule2Points (Total receipt)
  + rule3Points (Total receipt)
  + rule4Exact (Items receipt)
  + rule5Exact (Items receipt)
  + rule7Points (PurchaseDate receipt)
  + rule8Points (PurchaseTime receipt).

(** The lines that [calculatePoints] prints. *)
Definition logOf (receipt : Receipt) : list line :=
  [mkLine "Rule 1: %d points for retailer name (%s)\n"
     [ArgInt (rule1Points (Retailer receipt)); ArgString (Retailer receipt)];
   mkLine "Rule 2: %d points for total (%s)\n"
     [ArgInt (rule2Points (Total receipt)); ArgString (Total receipt)];
   mkLine "Rule 3: %d points for total (%s)\n"
     [ArgInt (rule3Points (Total receipt)); ArgString (Total receipt)];
   mkLine "Rule 4: %d points for %d items\n"
     [ArgInt (wrap64 (rule4Exact (Items receipt)));
      ArgInt (len_slice (Items receipt))]]
  ++ rule5Lines (Items receipt)
  ++ [mkLine "Rule 7: %d points for odd purchase date (%s)\n"
        [ArgInt (rule7Points (PurchaseDate receipt));
         ArgString (PurchaseDate receipt)];
      mkLine "Rule 8: %d points for purchase time (%s)\n"
        [ArgInt (rule8Points (PurchaseTime receipt));
         ArgString (PurchaseTime receipt)];
      mkLine "Total points: %d\n" [ArgInt (wrap64 (exactScore receipt))]].

(** The state after [lines] have been printed. *)
Definition printed (w : World) (lines : list line) : World :=
  mkWorld (receipts w) (points w) (stdout w ++ lines).

(** A receipt with another total. *)
Definition withTotal (receipt : Receipt) (total : string) : Receipt :=
  mkReceipt (Retailer receipt) (PurchaseDate receipt) (PurchaseTime receipt)
            (Items receipt) total.

(** ** Receipts and requests used as examples *)

(** A receipt with no text in any field and the given items. *)
Definition blankReceipt (items : list Item) : Receipt :=
  mkReceipt EmptyString EmptyString EmptyString items EmptyString.

(** An item without description. *)
Definition emptyDescriptionItem : Item := mkItem EmptyString "10.00".

(** An item with a negative price. *)
Definition negativePriceItem : Item := mkItem "abc" "-1000.00".

Definition targetReceipt : Receipt :=
  mkReceipt "Target" "2022-01-01" "13:01"
    [mkItem "Mountain Dew 12PK" "6.49";
     mkItem "Emils Cheese Pizza" "12.25";
     mkItem "Knorr Creamy Chicken" "1.26";
     mkItem "Doritos Nacho Cheese" "3.35";
     mkItem "   Klarbrunn 12-PK 12 FL OZ  " "12.00"]
    "35.35".

Definition marketReceipt : Receipt :=
  mkReceipt "M&M Corner Market" "2022-03-20" "14:33"
    [mkItem "Gatorade" "2.25"; mkItem "Gatorade" "2.25";
     mkItem "Gatorade" "2.25"; mkItem "Gatorade" "2.25"]
    "9.00".

Definition postReceipt (receipt : Receipt) : http.Request :=
  http.mkRequest "POST" (Some receipt) ∅.

Definition getPoints (id : string) : http.Request :=
  http.mkRequest "GET" None {[ "id"%string := id ]}.

(** Two submissions and a fetch in between. *)
Definition exampleCalls : list call :=
  [Submit "7fb1377b-b223-49d9-a31a-5a02701dd310" (postReceipt targetReceipt);
   Fetch (getPoints "7fb1377b-b223-49d9-a31a-5a02701dd310");
   Submit "adb6b560-0eef-42bc-9d16-df48f30e89b2" (postReceipt marketReceipt)].

(** A receipt with fifty items of 10^18 each. *)
Definition largePricesReceipt : Receipt :=
  blankReceipt (repeat (mkItem "abc" "1e18") 50).

(** A receipt whose purchase date names a day that does not exist. *)
Definition badDateReceipt : Receipt :=
  mkReceipt "Target" "2022-02-30" "13:01" [] "35.35".

(** A receipt whose total is not a number. *)
Definition badTotalReceipt : Receipt :=
  mkReceipt "Target" "2022-01-02" "13:01" [] "n/a".

(** A receipt whose total is a number beyond the range of [float64]. *)
Definition hugeTotalReceipt : Receipt :=
  mkReceipt "Target" "2022-01-02" "13:01" [] "1e999".

(** Texts with characters outside ASCII: a no-break space (U+00A0) before
    [a b ], and [ x] followed by a hair space (U+200A) or by a zero-width
    non-joiner (U+200C, not a space) and a space. *)
Definition nbspText : string :=
  String (ascii_of_nat 194) (String (ascii_of_nat 160) "a b ").

Definition hairSpaceText : string :=
  " x" +:+ String (ascii_of_nat 226) (String (ascii_of_nat 128)
             (String (ascii_of_nat 138) " ")).

Definition joinerText : string :=
  " x" +:+ String (ascii_of_nat 226) (String (ascii_of_nat 128)
             (String (ascii_of_nat 140) " ")).

(** The days of a year, each converted to an instant and back. *)
Definition calendarYearOk (y : Z) : bool :=
  forallb (fun m =>
    forallb (fun d =>
      let '(y', m', d') :=
        time.absDate (time.Date y (Z.of_nat m) (Z.of_nat d) 23 59) in
      (y' =? y) && (m' =? Z.of_nat m) && (d' =? Z.of_nat d))
      (seq 1 (Z.to_nat (time.daysIn (Z.of_nat m) y))))
    (seq 1 12).

(** A number of two digits as text. *)
Definition twoDigits (n : Z) : string :=
  String (ascii_of_N (Z.to_N (48 + n / 10)))
         (String (ascii_of_N (Z.to_N (48 + n mod 10))) EmptyString).

(** The text [HH:MM]. *)
Definition clock (h m : Z) : string := twoDigits h +:+ ":" +:+ twoDigits m.

(** ** Vocabulary of the further properties *)

(** A receipt with other items. *)
Definition withItems (receipt : Receipt) (items : list Item) : Receipt :=
  mkReceipt (Retailer receipt) (PurchaseDate receipt) (PurchaseTime receipt)
            items (Total receipt).

(** The receipt that a call stores: that of a submission which is answered
    with an identifier. *)
Definition accepted (c : call) : option Receipt :=
  match c with
  | Submit _ r =>
    if String.eqb (http.Method r) http.MethodPost then http.Decode r else None
  | Fetch _ => None
  end.

(** The score of a receipt and the lines that scoring it prints, taken from a
    run of [calculatePoints] in the initial state. *)
Definition scoreOf (receipt : Receipt) : Z :=
  fst (calculatePoints receipt initial).

Definition printedBy (receipt : Receipt) : list line :=
  stdout (snd (calculatePoints receipt initial)).

(** The two maps of the store agree: they have the same identifiers, and the
    score under an identifier is the score of the receipt under it. *)
Definition consistent (w : World) : Prop :=
  forall id,
    match points w !! id with
    | Some p => exists receipt,
        receipts w !! id = Some receipt /\ p = scoreOf receipt
    | None => receipts w !! id = None
    end.

(** The test of the character class [[a-zA-Z0-9]] on a byte. *)
Definition isAlnum (c : Z) : bool :=
  between 97 c 122 || between 65 c 90 || between 48 c 57.

(** [f] holds of the [n] integers from [i] on. *)
Fixpoint below (n : nat) (i : Z) (f : Z -> bool) : bool :=
  match n with
  | O => true
  | S k => f i && below k (i + 1) f
  end.

(** The character of a decimal digit. *)
Definition digit (d : Z) : ascii := ascii_of_N (Z.to_N (48 + d)).

(** A number below 10000 as text of four digits. *)
Definition fourDigits (n : Z) : string :=
  String (digit (n / 1000)) (String (digit (n / 100 mod 10))
    (String (digit (n / 10 mod 10)) (String (digit (n mod 10)) EmptyString))).

(** The text [YYYY-MM-DD]. *)
Definition dateText (y m d : Z) : string :=
  fourDigits y +:+ "-" +:+ twoDigits m +:+ "-" +:+ twoDigits d.

(** A natural number in decimal, without leading zeros; [fuel] bounds the
    number of digits. *)
Fixpoint decimalText (fuel : nat) (n : Z) (acc : string) : string :=
  match fuel with
  | O => acc
  | S fuel' =>
    let acc := String (digit (n mod 10)) acc in
    if n <? 10 then acc else decimalText fuel' (n / 10) acc
  end.

(** An amount of money as text with two decimals: [amount 12 50] is
    ["12.50"] and [amount 0 5] is ["0.05"]. *)
Definition amount (dollars cents : Z) : string :=
  decimalText 20 dollars EmptyString +:+ "." +:+ twoDigits cents.

(** A text of blanks: every byte is in the table [asciiSpace]. *)
Definition blank (s : string) : bool := forallb strings.asciiSpace (bytes s).

(** A text whose first and last bytes are ASCII and not blanks. *)
Definition solidEnds (s : string) : bool :=
  match bytes s, rev (bytes s) with
  | c1 :: _, c2 :: _ =>
    (c1 <? utf8.RuneSelf) && negb (strings.asciiSpace c1)
    && (c2 <? utf8.RuneSelf) && negb (strings.asciiSpace c2)
  | _, _ => false
  end.

(** ** Lemmas: 64-bit arithmetic *)

Lemma wrap64_range z : minInt <= wrap64 z <= maxInt.
Proof.
  unfold wrap64, minInt, maxInt.
  pose proof (Z.mod_pos_bound (z + 2 ^ 63) (2 ^ 64) ltac:(lia)). lia.
Qed.

Lemma wrap64_id z : minInt <= z <= maxInt -> wrap64 z = z.
Proof.
  unfold wrap64, minInt, maxInt. intros H.
  rewrite Z.mod_small by lia. lia.
Qed.

Lemma wrap64_add_l a b : wrap64 (wrap64 a + b) = wrap64 (a + b).
Proof.
  unfold wrap64.
  replace ((a + 2 ^ 63) mod 2 ^ 64 - 2 ^ 63 + b + 2 ^ 63)
    with ((a + 2 ^ 63) mod 2 ^ 64 + b) by lia.
  rewrite Z.add_mod_idemp_l by lia.
  f_equal. f_equal. lia.
Qed.

Lemma wrap64_add_r a b : wrap64 (a + wrap64 b) = wrap64 (a + b).
Proof. rewrite (Z.add_comm a), wrap64_add_l. f_equal. lia. Qed.

Lemma wrap64_idem z : wrap64 (wrap64 z) = wrap64 z.
Proof. apply wrap64_id, wrap64_range. Qed.

Lemma wrap64_decomp z : exists k, wrap64 z = z + 18446744073709551616 * k.
Proof.
  exists (- ((z + 2 ^ 63) / 2 ^ 64)). unfold wrap64.
  pose proof (Z.div_mod (z + 2 ^ 63) (2 ^ 64) ltac:(lia)). lia.
Qed.

Lemma wrap64_congr x y :
  x mod 18446744073709551616 = y mod 18446744073709551616 ->
  wrap64 x = wrap64 y.
Proof.
  intros H. unfold wrap64. change (2 ^ 64) with 18446744073709551616.
  f_equal.
  rewrite <- (Z.add_mod_idemp_l x), <- (Z.add_mod_idemp_l y) by lia.
  by rewrite H.
Qed.

(** Replace the innermost [wrap64 t] of the goal by [t] plus a multiple of
    [2^64]. *)
Ltac unwrap64 :=
  repeat match goal with
  | |- context [wrap64 ?t] =>
    lazymatch t with
    | context [wrap64 _] => fail
    | _ =>
      let k := fresh "k" in
      let H := fresh "H" in
      destruct (wrap64_decomp t) as [k H]; rewrite H; clear H
    end
  end.

(** Equations between wrapped sums whose terms may be wrapped. *)
Ltac wrap64_eq :=
  apply wrap64_congr; unwrap64; Z.to_euclidean_division_equations; lia.

(** ** Lemmas: what [calculatePoints] computes and prints *)

Lemma printed_nil w : printed w [] = w.
Proof. destruct w. unfold printed. simpl. by rewrite app_nil_r. Qed.

Lemma printed_app w l1 l2 : printed (printed w l1) l2 = printed w (l1 ++ l2).
Proof. unfold printed. simpl. by rewrite app_assoc. Qed.

Lemma Printf_run fm ar w : fmt.Printf fm ar w = (tt, printed w [mkLine fm ar]).
Proof. reflexivity. Qed.

Lemma rule5Exact_app l1 l2 :
  rule5Exact (l1 ++ l2) = rule5Exact l1 + rule5Exact l2.
Proof.
  induction l1 as [|item l1 IH]; simpl; [reflexivity|].
  rewrite IH. lia.
Qed.

(** The loop of rule 5 returns the wrapped sum of the contributions of the
    items and prints one line per item that passes the test. *)
Lemma rule5Loop_run items : forall acc w,
  minInt <= acc <= maxInt ->
  rule5Loop items acc w
  = (wrap64 (acc + rule5Exact items), printed w (rule5Lines items)).
Proof.
  induction items as [|item items IH]; intros acc w Hacc.
  - simpl. unfold ret. rewrite printed_nil, Z.add_0_r, wrap64_id; done.
  - simpl rule5Loop. simpl rule5Exact. simpl rule5Lines. unfold itemPoints.
    fold (bonus item).
    destruct (Z.rem (len (strings.TrimSpace (ShortDescription item))) 3 =? 0).
    + unfold bind. rewrite Printf_run.
      rewrite IH by apply wrap64_range.
      unfold add64. rewrite wrap64_add_l, printed_app.
      f_equal. f_equal. lia.
    + rewrite IH by done. simpl. f_equal.
  Qed.

(** [calculatePoints] returns the wrapped sum of the contributions of the
    rules, prints its lines, and leaves the two maps as they are. *)
Lemma calculatePoints_run receipt w :
  calculatePoints receipt w
  = (wrap64 (exactScore receipt), printed w (logOf receipt)).
Proof.
  unfold calculatePoints, bind, ret.
  rewrite !Printf_run.
  fold (rule1Points (Retailer receipt)).
  assert (H5 : forall w', rule5Loop (Items receipt) 0 w'
             = (wrap64 (rule5Exact (Items receipt)),
                printed w' (rule5Lines (Items receipt)))).
  { intros w'. rewrite rule5Loop_run by (unfold minInt, maxInt; lia).
    reflexivity. }
  unfold logOf, exactScore.
  unfold rule2Points, rule3Points, multipleOfQuarter, rule7Points, rule8Points,
    mul64, add64.
  fold (rule4Exact (Items receipt)).
  destruct (strings.HasSuffix (Total receipt) ".00");
  destruct (SFeqb (math.Mod (fst (strconv.ParseFloat (Total receipt))) f0_25) f0);
  destruct (negb (Z.rem (time.Day (fst (time.Parse time.layoutDate (PurchaseDate receipt)))) 2 =? 0));
  destruct ((time.Hour (fst (time.Parse time.layoutTime (PurchaseTime receipt))) =? 14)
            || ((time.Hour (fst (time.Parse time.layoutTime (PurchaseTime receipt))) =? 15)
                && (time.Minute (fst (time.Parse time.layoutTime (PurchaseTime receipt))) <? 60)));
  cbv beta iota zeta; rewrite ?Printf_run; cbv beta iota;
  rewrite H5; cbv beta iota; rewrite ?Printf_run; cbv beta iota;
  rewrite ?printed_app; simpl app.
  all: match goal with
       | |- (?a, printed _ (_ :: _ :: _ :: _ :: _ ++ [_; _; mkLine _ [ArgInt ?a']])) = (?b, _) =>
         replace a with b by (symmetry; wrap64_eq)
       end; reflexivity.
Qed.

Lemma calculatePoints_fst receipt w :
  fst (calculatePoints receipt w) = wrap64 (exactScore receipt).
Proof. by rewrite calculatePoints_run. Qed.

Lemma calculatePoints_stdout receipt w :
  stdout (snd (calculatePoints receipt w)) = stdout w ++ logOf receipt.
Proof. by rewrite calculatePoints_run. Qed.

(** ** Lemmas: the library functions *)

Lemma drop_string_append p t :
  drop_string (String.length p) (p +:+ t) = t.
Proof. induction p as [|c p IH]; [reflexivity | exact IH]. Qed.

Lemma drop_string_split n : forall s,
  (n <= String.length s)%nat ->
  exists p, s = p +:+ drop_string n s /\ String.length p = n.
Proof.
  induction n as [|n IH]; intros s Hn.
  - exists EmptyString. split; reflexivity.
  - destruct s as [|c s]; simpl in Hn; [lia|].
    destruct (IH s ltac:(lia)) as (p & Hp & Hl).
    exists (String c p). split; [|by simpl; rewrite Hl].
    change (String c s = String c (p +:+ drop_string n s)). congruence.
Qed.

Lemma append_length p t :
  String.length (p +:+ t) = (String.length p + String.length t)%nat.
Proof.
  induction p as [|c p IH]; [reflexivity|].
  change (S (String.length (p +:+ t)) = S (String.length p + String.length t)).
  congruence.
Qed.

(** [strings.HasSuffix] is the suffix relation on the bytes of the string. *)
Lemma HasSuffix_spec s suffix :
  strings.HasSuffix s suffix = true <-> exists p, s = p +:+ suffix.
Proof.
  unfold strings.HasSuffix. rewrite andb_true_iff, Nat.leb_le, String.eqb_eq.
  split.
  - intros [Hl Hd].
    destruct (drop_string_split (String.length s - String.length suffix) s
                ltac:(lia)) as (p & Hp & _).
    exists p. by rewrite Hd in Hp.
  - intros [p ->]. rewrite append_length. split; [lia|].
    replace (String.length p + String.length suffix - String.length suffix)%nat
      with (String.length p) by lia.
    apply drop_string_append.
Qed.

Lemma Hour_range t : 0 <= time.Hour t < 24.
Proof.
  unfold time.Hour, time.secondsPerDay, time.secondsPerHour, time.secondsPerMinute.
  pose proof (Z.mod_pos_bound (time.sec t) (24 * (60 * 60)) ltac:(lia)).
  split; [apply Z.div_pos; lia | apply Z.div_lt_upper_bound; lia].
Qed.

Lemma Minute_range t : 0 <= time.Minute t < 60.
Proof.
  unfold time.Minute, time.secondsPerHour, time.secondsPerMinute.
  pose proof (Z.mod_pos_bound (time.sec t) (60 * 60) ltac:(lia)).
  split; [apply Z.div_pos; lia | apply Z.div_lt_upper_bound; lia].
Qed.

(** Every error of [time.Parse] comes with the zero [Time]. *)
Lemma Parse_error layout value :
  snd (time.Parse layout value) <> None ->
  fst (time.Parse layout value) = time.zeroTime.
Proof.
  unfold time.Parse.
  destruct (time.parseChunks layout (bytes value) time.noFields) as [f|];
    [|reflexivity].
  destruct ((_ <? 1) || _); [reflexivity|]. simpl. congruence.
Qed.

(** The zero [Time] is January 1 of year 1, at midnight. *)
Lemma zeroTime_date :
  time.absDate time.zeroTime = (1, 1, 1)
  /\ time.Hour time.zeroTime = 0 /\ time.Minute time.zeroTime = 0.
Proof. repeat split. Qed.

(** The errors of [strconv.ParseFloat]: a syntax error comes with the value
    [+0], a range error with an infinity. *)
Lemma ParseFloat_error s :
  match snd (strconv.ParseFloat s) with
  | Some strconv.ErrSyntax => fst (strconv.ParseFloat s) = S754_zero false
  | Some strconv.ErrRange => strconv.is_infinity (fst (strconv.ParseFloat s)) = true
  | None => True
  end.
Proof.
  unfold strconv.ParseFloat, strconv.atof64.
  destruct (strconv.special (bytes s)) as [[val n]|].
  { destruct (skipn n (bytes s)); simpl; auto. }
  destruct (strconv.readFloat (bytes s)) as [[n rest]|].
  2: { destruct (bytes s); simpl; auto. }
  assert (H : forall f ovf, (if strconv.hex n then strconv.atofHex n
                             else strconv.decimalToFloat n) = (f, ovf) ->
                            ovf = true -> strconv.is_infinity f = true).
  { intros f ovf. unfold strconv.atofHex, strconv.decimalToFloat.
    cbv zeta.
    destruct (strconv.hex n), (strconv.digits n =? 0); try congruence.
    destruct (310 <? strconv.point n); [intros [= <- <-]; auto|].
    destruct (strconv.point n <? -330); congruence. }
  destruct (if strconv.hex n then strconv.atofHex n else strconv.decimalToFloat n)
    as [f ovf] eqn:E.
  specialize (H f ovf eq_refl).
  destruct ovf, rest; simpl; auto.
Qed.

(** A well-formed time of day parses to its hour and its minute. *)
Lemma Parse_clock h m :
  0 <= h < 24 -> 0 <= m < 60 ->
  let t := fst (time.Parse time.layoutTime (clock h m)) in
  snd (time.Parse time.layoutTime (clock h m)) = None
  /\ time.Hour t = h /\ time.Minute t = m.
Proof.
  intros Hh Hm.
  assert (A : forallb (fun h => forallb (fun m =>
              let p := time.Parse time.layoutTime (clock (Z.of_nat h) (Z.of_nat m)) in
              match snd p with None => true | Some _ => false end
              && (time.Hour (fst p) =? Z.of_nat h)
              && (time.Minute (fst p) =? Z.of_nat m)) (seq 0 60)) (seq 0 24) = true)
    by (vm_compute; reflexivity).
  rewrite forallb_forall in A.
  specialize (A (Z.to_nat h)). rewrite in_seq in A.
  specialize (A ltac:(lia)). rewrite forallb_forall in A.
  specialize (A (Z.to_nat m)). rewrite in_seq in A.
  specialize (A ltac:(lia)).
  rewrite !Z2Nat.id in A by lia.
  rewrite !andb_true_iff, !Z.eqb_eq in A. destruct A as [[A1 A2] A3].
  cbv zeta. repeat split; auto.
  destruct (snd (time.Parse time.layoutTime (clock h m))); congruence.
Qed.

(** ** Lemmas: the handlers and the store *)

Lemma handleGetPoints_state r w : snd (handleGetPoints r w) = w.
Proof.
  unfold handleGetPoints, bind, load, ret.
  destruct (negb _); [reflexivity|].
  destruct (points w !! _); reflexivity.
Qed.

Lemma handleProcessReceipt_rejected uuid r w :
  issued (Submit uuid r) = None -> snd (handleProcessReceipt uuid r w) = w.
Proof.
  unfold issued, handleProcessReceipt, ret.
  destruct (String.eqb (http.Method r) http.MethodPost); [|reflexivity].
  destruct (http.Decode r); [discriminate|reflexivity].
Qed.

Lemma handleProcessReceipt_accepted uuid r receipt w :
  http.Method r = http.MethodPost -> http.Decode r = Some receipt ->
  handleProcessReceipt uuid r w
  = (http.EncodeID http.StatusOK "application/json" (mkIDResponse uuid),
     mkWorld (<[uuid := receipt]> (receipts w))
             (<[uuid := fst (calculatePoints receipt w)]> (points w))
             (stdout w ++ logOf receipt)).
Proof.
  intros Hm Hd. unfold handleProcessReceipt. rewrite Hm, Hd.
  change (String.eqb http.MethodPost http.MethodPost) with true.
  cbv beta iota delta [negb bind store ret].
  rewrite calculatePoints_run. reflexivity.
Qed.

Lemma issued_Submit uuid r id :
  issued (Submit uuid r) = Some id ->
  id = uuid /\ http.Method r = http.MethodPost
  /\ exists receipt, http.Decode r = Some receipt.
Proof.
  unfold issued.
  destruct (String.eqb (http.Method r) http.MethodPost) eqn:E; [|discriminate].
  apply String.eqb_eq in E.
  destruct (http.Decode r) as [receipt|]; [|discriminate].
  intros [= <-]. eauto.
Qed.

(** A call changes at most the entry of the identifier it issues. *)
Lemma serve_points_other c w id :
  issued c <> Some id -> points (snd (serve c w)) !! id = points w !! id.
Proof.
  intros Hi. destruct c as [uuid r|r]; simpl serve.
  - destruct (issued (Submit uuid r)) as [id'|] eqn:E.
    + destruct (issued_Submit _ _ _ E) as (-> & Hm & receipt & Hd).
      rewrite (handleProcessReceipt_accepted _ _ receipt) by done.
      simpl. apply lookup_insert_ne. congruence.
    + by rewrite handleProcessReceipt_rejected.
  - by rewrite handleGetPoints_state.
Qed.

Lemma serve_receipts_other c w id :
  issued c <> Some id -> receipts (snd (serve c w)) !! id = receipts w !! id.
Proof.
  intros Hi. destruct c as [uuid r|r]; simpl serve.
  - destruct (issued (Submit uuid r)) as [id'|] eqn:E.
    + destruct (issued_Submit _ _ _ E) as (-> & Hm & receipt & Hd).
      rewrite (handleProcessReceipt_accepted _ _ receipt) by done.
      simpl. apply lookup_insert_ne. congruence.
    + by rewrite handleProcessReceipt_rejected.
  - by rewrite handleGetPoints_state.
Qed.

Lemma serve_points_issued c w id :
  issued c = Some id -> is_Some (points (snd (serve c w)) !! id).
Proof.
  intros Hi. destruct c as [uuid r|r]; [|discriminate].
  destruct (issued_Submit _ _ _ Hi) as (-> & Hm & receipt & Hd).
  simpl serve. rewrite (handleProcessReceipt_accepted _ _ receipt) by done.
  simpl. rewrite lookup_insert_eq. eauto.
Qed.

(** With unique identifiers, an entry of the store stays as it is. *)
Lemma serveAll_keeps cs : forall w id p,
  uniqueIds cs w ->
  points w !! id = Some p -> points (serveAll cs w) !! id = Some p.
Proof.
  induction cs as [|c cs IH]; intros w id p Hu Hp; [exact Hp|].
  destruct Hu as [Hc Hu]. simpl. apply IH; [exact Hu|].
  rewrite serve_points_other; [exact Hp|].
  intros E. rewrite E in Hc. congruence.
Qed.

(** The identifiers of the store are those it had and those issued. *)
Lemma serveAll_dom cs : forall w id,
  is_Some (points (serveAll cs w) !! id)
  <-> is_Some (points w !! id) \/ id ∈ issuedBy cs.
Proof.
  unfold issuedBy.
  induction cs as [|c cs IH]; intros w id; simpl.
  - rewrite elem_of_nil. tauto.
  - rewrite IH. destruct (issued c) as [id'|] eqn:E.
    + rewrite elem_of_cons. destruct (decide (id = id')) as [->|Hne].
      * pose proof (serve_points_issued c w id' E). tauto.
      * rewrite serve_points_other by congruence. tauto.
    + rewrite serve_points_other by congruence. tauto.
Qed.

(** ** Lemmas: the contributions are not negative, rule 5 apart *)

Lemma rule1Points_nonneg retailer : 0 <= rule1Points retailer.
Proof. unfold rule1Points, len_slice. lia. Qed.

Lemma rule2Points_nonneg total : 0 <= rule2Points total.
Proof. unfold rule2Points. destruct (strings.HasSuffix _ _); lia. Qed.

Lemma rule3Points_nonneg total : 0 <= rule3Points total.
Proof. unfold rule3Points. destruct (multipleOfQuarter _); lia. Qed.

Lemma rule4Exact_nonneg items : 0 <= rule4Exact items.
Proof.
  unfold rule4Exact, len_slice.
  pose proof (Z.quot_pos (Z.of_nat (length items)) 2 ltac:(lia) ltac:(lia)). lia.
Qed.

Lemma rule7Points_nonneg purchaseDate : 0 <= rule7Points purchaseDate.
Proof. unfold rule7Points. destruct (negb _); lia. Qed.

Lemma rule8Points_nonneg purchaseTime : 0 <= rule8Points purchaseTime.
Proof. unfold rule8Points. cbv zeta. destruct (_ || _); lia. Qed.

Lemma rule5Exact_nonneg items :
  (forall item, In item items -> 0 <= itemPoints item) -> 0 <= rule5Exact items.
Proof.
  induction items as [|item items IH]; intros H; simpl; [lia|].
  pose proof (H item (or_introl eq_refl)).
  pose proof (IH (fun i Hi => H i (or_intror Hi))). lia.
Qed.

(** ** Lemmas: rounding keeps the sign and the magnitude *)

(** The number of binary digits of a mantissa. *)
Lemma Zdigits2_bounds p :
  2 ^ (Zdigits2 (Zpos p) - 1) <= Zpos p < 2 ^ Zdigits2 (Zpos p).
Proof.
  unfold Zdigits2. induction p as [p IH|p IH|]; cbn [digits2_pos].
  - rewrite Pos2Z.inj_succ.
    replace (Z.succ (Z.pos (digits2_pos p)) - 1) with (Z.succ (Z.pos (digits2_pos p) - 1)) by lia.
    rewrite !Z.pow_succ_r by lia. lia.
  - rewrite Pos2Z.inj_succ.
    replace (Z.succ (Z.pos (digits2_pos p)) - 1) with (Z.succ (Z.pos (digits2_pos p) - 1)) by lia.
    rewrite !Z.pow_succ_r by lia. lia.
  - simpl. lia.
Qed.

Lemma Zdigits2_le p k : Zpos p < 2 ^ k -> Zdigits2 (Zpos p) <= k.
Proof.
  intros H. pose proof (Zdigits2_bounds p) as [L _].
  destruct (Z.le_gt_cases (Zdigits2 (Zpos p)) k) as [|G]; [assumption|].
  assert (2 ^ k <= 2 ^ (Zdigits2 (Z.pos p) - 1)); [|lia].
  destruct (Z.lt_ge_cases k 0) as [N|N].
  - rewrite (Z.pow_neg_r 2 k) by assumption. apply Z.pow_nonneg. lia.
  - apply Z.pow_le_mono_r; lia.
Qed.

Lemma Zdigits2_mul p q :
  Zdigits2 (Zpos (p * q)) <= Zdigits2 (Zpos p) + Zdigits2 (Zpos q).
Proof.
  apply Zdigits2_le.
  pose proof (Zdigits2_bounds p) as [_ Hp]. pose proof (Zdigits2_bounds q) as [_ Hq].
  rewrite Z.pow_add_r by (unfold Zdigits2; lia).
  rewrite Pos2Z.inj_mul. nia.
Qed.

(** One step to the right halves a mantissa that is not negative. *)
Lemma shr_1_m mrs : 0 <= shr_m mrs -> shr_m (shr_1 mrs) = shr_m mrs / 2.
Proof.
  destruct mrs as [m r s]. cbn [shr_m]. intros H.
  destruct m as [|[p|p|]|p]; cbn [shr_1 shr_m]; try lia.
  - reflexivity.
  - rewrite Pos2Z.inj_xI. Z.to_euclidean_division_equations; lia.
  - rewrite Pos2Z.inj_xO. Z.to_euclidean_division_equations; lia.
  - reflexivity.
Qed.

Lemma iter_shr_1_m n : forall mrs,
  0 <= shr_m mrs -> shr_m (SpecFloat.iter_pos shr_1 n mrs) = shr_m mrs / 2 ^ Zpos n.
Proof.
  assert (P : forall k, 0 < 2 ^ Zpos k) by (intros; apply Z.pow_pos_nonneg; lia).
  induction n as [n IH|n IH|]; intros mrs H; cbn [SpecFloat.iter_pos].
  - assert (H1 : 0 <= shr_m (shr_1 mrs))
      by (rewrite shr_1_m by assumption; apply Z.div_pos; lia).
    assert (H2 : 0 <= shr_m (SpecFloat.iter_pos shr_1 n (shr_1 mrs)))
      by (rewrite IH by assumption; apply Z.div_pos; [lia|apply P]).
    rewrite IH, IH, shr_1_m by assumption.
    pose proof (P n).
    rewrite !Z.div_div by lia.
    f_equal.
    replace (Z.pos n~1) with (1 + Z.pos n + Z.pos n) by lia.
    rewrite !Z.pow_add_r by lia. lia.
  - assert (H2 : 0 <= shr_m (SpecFloat.iter_pos shr_1 n mrs))
      by (rewrite IH by assumption; apply Z.div_pos; [lia|apply P]).
    rewrite IH, IH by assumption.
    pose proof (P n).
    rewrite !Z.div_div by lia.
    f_equal.
    replace (Z.pos n~0) with (Z.pos n + Z.pos n) by lia.
    rewrite !Z.pow_add_r by lia. lia.
  - rewrite shr_1_m by assumption. reflexivity.
Qed.

Lemma shr_record_of_loc_m m l : shr_m (shr_record_of_loc m l) = m.
Proof. destruct l as [|[]]; reflexivity. Qed.

(** A shift to the right of a mantissa that is not negative: the mantissa
    stays so, and as long as it is not zero the value keeps its magnitude. *)
Lemma shr_width m l e n :
  0 <= m ->
  0 <= shr_m (fst (shr (shr_record_of_loc m l) e n)) <= m
  /\ (0 < shr_m (fst (shr (shr_record_of_loc m l) e n)) ->
      Zdigits2 (shr_m (fst (shr (shr_record_of_loc m l) e n)))
      + snd (shr (shr_record_of_loc m l) e n) <= Zdigits2 m + e)
  /\ (0 < m -> shr_m (fst (shr (shr_record_of_loc m l) e n)) = 0 ->
      snd (shr (shr_record_of_loc m l) e n) = e + n).
Proof.
  intros Hm. unfold shr.
  destruct n as [|p|p]; cbn [fst snd]; rewrite ?shr_record_of_loc_m.
  - split; [lia|]. split; lia.
  - rewrite iter_shr_1_m by (rewrite shr_record_of_loc_m; assumption).
    rewrite shr_record_of_loc_m.
    assert (P : 0 < 2 ^ Zpos p) by (apply Z.pow_pos_nonneg; lia).
    split; [split; [apply Z.div_pos; lia|apply Z.div_le_upper_bound; nia]|].
    split; [|reflexivity].
    intros Hq. destruct m as [|pm|pm]; [rewrite Z.div_0_l in Hq; lia| |lia].
    destruct (Z.pos pm / 2 ^ Z.pos p) as [|pq|pq] eqn:Q; try lia.
    pose proof (Zdigits2_bounds pm) as [_ U].
    set (d := Zdigits2 (Z.pos pm)) in *.
    assert (Hle : 2 ^ Zpos p <= Zpos pm).
    { destruct (Z.lt_ge_cases (Zpos pm) (2 ^ Zpos p)) as [L|]; [|assumption].
      rewrite Z.div_small in Q by lia. discriminate. }
    assert (Hd : Zpos p < d).
    { apply (Z.pow_lt_mono_r_iff 2); [lia|unfold d, Zdigits2; lia|lia]. }
    assert (W : Zdigits2 (Zpos pq) <= d - Zpos p); [|lia].
    apply Zdigits2_le. rewrite <- Q.
    apply Z.div_lt_upper_bound; [assumption|].
    rewrite <- Z.pow_add_r by lia. replace (Zpos p + (d - Zpos p)) with d by lia.
    assumption.
  - split; [lia|]. split; lia.
Qed.

Lemma round_nearest_even_bounds m l : m <= round_nearest_even m l <= m + 1.
Proof. destruct l as [|[]]; simpl; try lia. destruct (Z.even m); lia. Qed.

Lemma Zdigits2_succ p : Zdigits2 (Zpos p + 1) <= Zdigits2 (Zpos p) + 1.
Proof.
  change (Zpos p + 1) with (Zpos (p + 1)). apply Zdigits2_le.
  pose proof (Zdigits2_bounds p) as [_ U].
  rewrite Z.pow_add_r by (unfold Zdigits2; lia). lia.
Qed.

(** Rounding a positive number to a [float64]: the result is not negative,
    and it is finite, with at most one binary digit more before the point,
    when the number is not too large. *)
Lemma binary_round_aux_width M E K :
  Zdigits2 (Zpos M) + E <= K -> -1074 <= K -> K <= 970 ->
  match binary_round_aux strconv.prec strconv.emax false (Zpos M) E loc_Exact with
  | S754_zero false => True
  | S754_finite false m e => Zdigits2 (Zpos m) + e <= K + 1
  | _ => False
  end.
Proof.
  intros HK Hlo Hhi. unfold binary_round_aux, shr_fexp.
  set (n := fexp strconv.prec strconv.emax (Zdigits2 (Zpos M) + E) - E).
  assert (Hn : E + n <= K).
  { unfold n, fexp, emin. change strconv.prec with 53. change strconv.emax with 1024.
    lia. }
  destruct (shr_width (Zpos M) loc_Exact E n ltac:(lia)) as (Q0 & Q1 & Q2).
  destruct (shr (shr_record_of_loc (Zpos M) loc_Exact) E n) as [mrs' e'].
  cbn [fst snd] in Q0, Q1, Q2.
  pose proof (round_nearest_even_bounds (shr_m mrs') (loc_of_shr_record mrs')) as R.
  set (m1 := round_nearest_even (shr_m mrs') (loc_of_shr_record mrs')) in *.
  set (n2 := fexp strconv.prec strconv.emax (Zdigits2 m1 + e') - e').
  assert (W1 : 0 < m1 -> Zdigits2 m1 + e' <= K + 1).
  { intros Hm1. destruct (Z.eq_dec (shr_m mrs') 0) as [Z0|NZ].
    - rewrite (Q2 ltac:(lia) Z0). replace m1 with 1 by lia. simpl. lia.
    - specialize (Q1 ltac:(lia)).
      destruct (shr_m mrs') as [|q|q] eqn:Eq; try lia.
      destruct (Z.eq_dec m1 (Zpos q)) as [->|]; [lia|].
      replace m1 with (Zpos q + 1) by lia.
      pose proof (Zdigits2_succ q). lia. }
  destruct (shr_width m1 loc_Exact e' n2 ltac:(lia)) as (S0 & S1 & _).
  destruct (shr (shr_record_of_loc m1 loc_Exact) e' n2) as [mrs'' e''].
  cbn [fst snd] in S0, S1.
  destruct (shr_m mrs'') as [|m|m] eqn:Em; [exact I| |lia].
  specialize (S1 ltac:(lia)).
  assert (0 < m1).
  { lia. }
  specialize (W1 ltac:(lia)).
  replace (e'' <=? strconv.emax - strconv.prec) with true.
  - lia.
  - symmetry. apply Z.leb_le. change (strconv.emax - strconv.prec) with 971.
    assert (1 <= Zdigits2 (Zpos m)) by (unfold Zdigits2; lia). lia.
Qed.

Lemma digits2_pos_iter_xO d : forall m,
  Zpos (digits2_pos (Pos.iter xO m d)) = Zpos (digits2_pos m) + Zpos d.
Proof.
  induction d as [|d IH] using Pos.peano_ind; intros m.
  - simpl. lia.
  - rewrite Pos.iter_succ. cbn [digits2_pos]. rewrite Pos2Z.inj_succ, IH. lia.
Qed.

Lemma shl_align_width mx ex ex' :
  Zdigits2 (Zpos (fst (shl_align mx ex ex'))) + snd (shl_align mx ex ex')
  = Zdigits2 (Zpos mx) + ex.
Proof.
  unfold shl_align. destruct (ex' - ex) as [|d|d] eqn:E; cbn [fst snd]; try reflexivity.
  unfold Zdigits2. rewrite digits2_pos_iter_xO. lia.
Qed.

Lemma binary_round_width mx ex K :
  Zdigits2 (Zpos mx) + ex <= K -> -1074 <= K -> K <= 970 ->
  match binary_round strconv.prec strconv.emax false mx ex with
  | S754_zero false => True
  | S754_finite false m e => Zdigits2 (Zpos m) + e <= K + 1
  | _ => False
  end.
Proof.
  intros HK Hlo Hhi. unfold binary_round.
  pose proof (shl_align_width mx ex
                (fexp strconv.prec strconv.emax (Zpos (digits2_pos mx) + ex))) as W.
  destruct (shl_align mx ex _) as [mz ez]. cbn [fst snd] in W.
  apply binary_round_aux_width; lia.
Qed.

(** [math.Ceil] of a positive number that is not too large. *)
Lemma Ceil_width m e K :
  Zdigits2 (Zpos m) + e <= K -> 0 <= K -> K <= 969 ->
  match math.Ceil (S754_finite false m e) with
  | S754_zero false => True
  | S754_finite false m' e' => Zdigits2 (Zpos m') + e' <= K + 2
  | _ => False
  end.
Proof.
  intros HK Hlo Hhi. unfold math.Ceil.
  destruct (Z.leb_spec 0 e) as [He|He]; [lia|].
  cbn [cond_Zopp].
  assert (P : 0 < 2 ^ (- e)) by (apply Z.pow_pos_nonneg; lia).
  pose proof (Zdigits2_bounds m) as [_ U].
  assert (D : 1 <= Zdigits2 (Zpos m)) by (unfold Zdigits2; lia).
  assert (U' : Zpos m < 2 ^ K * 2 ^ (- e)).
  { rewrite <- Z.pow_add_r by lia.
    eapply Z.lt_le_trans; [exact U|]. apply Z.pow_le_mono_r; lia. }
  assert (L1 : - Z.pos m / 2 ^ (- e) <= -1).
  { assert (- Z.pos m / 2 ^ (- e) < 0); [|lia].
    apply Z.div_lt_upper_bound; [assumption|]. lia. }
  assert (L2 : - 2 ^ K <= - Z.pos m / 2 ^ (- e)).
  { apply Z.div_le_lower_bound; [assumption|]. lia. }
  destruct (- (- Z.pos m / 2 ^ (- e))) as [|z|z] eqn:Ez; try lia.
  cbn [binary_normalize].
  assert (Wz : Zdigits2 (Zpos z) + 0 <= K + 1).
  { assert (Zdigits2 (Zpos z) <= K + 1); [|lia].
    apply Zdigits2_le. rewrite Z.pow_add_r by lia. lia. }
  pose proof (binary_round_width z 0 (K + 1) Wz ltac:(lia) ltac:(lia)) as R.
  destruct (binary_round _ _ _ _ _) as [[|]| | |[|] m' e']; try exact R. lia.
Qed.

(** The conversion [int(f)] of a number that is not negative and below
    [2^62]. *)
Lemma int_of_float64_width m e :
  Zdigits2 (Zpos m) + e <= 62 ->
  0 <= int_of_float64 (S754_finite false m e) < 2 ^ 62.
Proof.
  intros HK. unfold int_of_float64. cbn [cond_Zopp].
  pose proof (Zdigits2_bounds m) as [_ U].
  assert (D : 1 <= Zdigits2 (Zpos m)) by (unfold Zdigits2; lia).
  assert (T : 0 <= (if 0 <=? e then Z.pos m * 2 ^ e else Z.pos m ÷ 2 ^ (- e)) < 2 ^ 62).
  { destruct (Z.leb_spec 0 e) as [He|He].
    - assert (P : 0 < 2 ^ e) by (apply Z.pow_pos_nonneg; lia).
      split; [lia|].
      apply Z.lt_le_trans with (2 ^ (Zdigits2 (Zpos m) + e)).
      + rewrite Z.pow_add_r by lia. nia.
      + apply Z.pow_le_mono_r; lia.
    - assert (P : 0 < 2 ^ (- e)) by (apply Z.pow_pos_nonneg; lia).
      rewrite Z.quot_div_nonneg by lia.
      split; [apply Z.div_pos; lia|].
      apply Z.div_lt_upper_bound; [assumption|].
      rewrite <- Z.pow_add_r by lia.
      eapply Z.lt_le_trans; [exact U|]. apply Z.pow_le_mono_r; lia. }
  set (t := if 0 <=? e then Z.pos m * 2 ^ e else Z.pos m ÷ 2 ^ (- e)) in *.
  replace ((minInt <=? t) && (t <=? maxInt)) with true; [exact T|].
  symmetry. apply andb_true_iff. unfold minInt, maxInt.
  split; apply Z.leb_le; lia.
Qed.

(** A price that reads as a number from 0 up to, not including, [2^60] earns
    a bonus that is not negative. *)
Lemma bonus_nonneg item :
  priceInRange (Price item) = true -> 0 <= bonus item < 2 ^ 62.
Proof.
  unfold priceInRange, bonus.
  destruct (fst (strconv.ParseFloat (Price item))) as [s| | |[|] m e]; try discriminate.
  - intros _. destruct s; simpl; lia.
  - intros H. apply Z.ltb_lt in H.
    assert (W : Zdigits2 (Zpos m) + e <= 60).
    { pose proof (Zdigits2_le m (60 - e) H). lia. }
    unfold f0_2. cbn [SFmul xorb].
    pose proof (Zdigits2_mul m 7205759403792794) as Wm.
    change (Zdigits2 (Zpos 7205759403792794)) with 53 in Wm.
    pose proof (binary_round_aux_width (m * 7205759403792794) (e + -55) 58
                  ltac:(lia) ltac:(lia) ltac:(lia)) as R.
    destruct (binary_round_aux _ _ _ _ _ _) as [[|]| | |[|] m1 e1]; try contradiction.
    + simpl. lia.
    + pose proof (Ceil_width m1 e1 59 R ltac:(lia) ltac:(lia)) as C.
      destruct (math.Ceil _) as [[|]| | |[|] m2 e2]; try contradiction.
      * simpl. lia.
      * apply int_of_float64_width. lia.
Qed.

Lemma itemPoints_nonneg item :
  priceInRange (Price item) = true -> 0 <= itemPoints item < 2 ^ 62.
Proof.
  intros H. pose proof (bonus_nonneg item H). unfold itemPoints.
  destruct (_ =? _); lia.
Qed.

(** A price that is not a well-formed number is read as [+0] and earns
    nothing. *)
Lemma bonus_syntax_error item :
  snd (strconv.ParseFloat (Price item)) = Some strconv.ErrSyntax ->
  bonus item = 0.
Proof.
  intros H. pose proof (ParseFloat_error (Price item)) as E.
  rewrite H in E. unfold bonus. rewrite E. reflexivity.
Qed.

(** ** Lemmas: the fuel of the trimming loops is enough *)

Lemma DecodeRune_size s : s <> [] -> (1 <= snd (utf8.DecodeRune s))%nat.
Proof.
  intros Hs. unfold utf8.DecodeRune.
  repeat case_match; simpl; try lia; congruence.
Qed.

Lemma findStart_pos n : forall k r w,
  utf8.findStart n k r = Some w -> (1 <= w)%nat.
Proof.
  induction n as [|n IH]; intros k r w; simpl; [discriminate|].
  destruct r as [|b r]; [discriminate|].
  destruct (utf8.RuneStart b); [intros [= <-]; lia | apply IH].
Qed.

Lemma DecodeLastRune_size r : r <> [] -> (1 <= snd (utf8.DecodeLastRune r))%nat.
Proof.
  intros Hr. unfold utf8.DecodeLastRune.
  destruct r as [|b r]; [congruence|].
  destruct (b <? utf8.RuneSelf); [simpl; lia|].
  destruct (utf8.findStart _ _ _) as [w|] eqn:E; [|simpl; lia].
  apply findStart_pos in E.
  destruct (utf8.DecodeRune _) as [c size].
  destruct (Nat.eqb_spec size w); simpl; lia.
Qed.

(** Any fuel from the length of the text on gives the same result: the
    loops stop because the text is used up, not the fuel. *)
Lemma trimLeftSpaces_fuel f1 : forall f2 s,
  (length s <= f1)%nat -> (length s <= f2)%nat ->
  strings.trimLeftSpaces f1 s = strings.trimLeftSpaces f2 s.
Proof.
  induction f1 as [|f1 IH]; intros f2 s H1 H2.
  - destruct s; [|simpl in H1; lia]. by destruct f2.
  - destruct s as [|c s]; [by destruct f2|].
    destruct f2 as [|f2]; [simpl in H2; lia|].
    cbn [strings.trimLeftSpaces].
    pose proof (DecodeRune_size (c :: s) ltac:(done)) as Hsz.
    destruct (utf8.DecodeRune (c :: s)) as [r size]. simpl in Hsz.
    destruct (unicode.IsSpace r); [|reflexivity].
    apply IH; rewrite length_skipn; simpl in *; lia.
Qed.

Lemma trimRightSpaces_fuel f1 : forall f2 r,
  (length r <= f1)%nat -> (length r <= f2)%nat ->
  strings.trimRightSpaces f1 r = strings.trimRightSpaces f2 r.
Proof.
  induction f1 as [|f1 IH]; intros f2 r H1 H2.
  - destruct r; [|simpl in H1; lia]. by destruct f2.
  - destruct r as [|c r]; [by destruct f2|].
    destruct f2 as [|f2]; [simpl in H2; lia|].
    cbn [strings.trimRightSpaces].
    pose proof (DecodeLastRune_size (c :: r) ltac:(done)) as Hsz.
    destruct (utf8.DecodeLastRune (c :: r)) as [x size]. simpl in Hsz.
    destruct (unicode.IsSpace x); [|reflexivity].
    apply IH; rewrite length_skipn; simpl in *; lia.
Qed.

(** ** Checks of the library models on known values *)

Example TrimSpace_known :
  strings.TrimSpace "   Klarbrunn 12-PK 12 FL OZ  " = "Klarbrunn 12-PK 12 FL OZ"%string
  /\ strings.TrimSpace "   " = EmptyString
  /\ strings.TrimSpace nbspText = "a b"%string
  /\ strings.TrimSpace hairSpaceText = "x"%string
  /\ String.length (strings.TrimSpace joinerText) = 4%nat.
Proof. repeat split. Qed.

Example ParseFloat_known :
  strconv.ParseFloat "0.1" = (S754_finite false 7205759403792794 (-56), None)
  /\ strconv.ParseFloat "0.2" = (f0_2, None)
  /\ strconv.ParseFloat "0.25" = (f0_25, None)
  /\ strconv.ParseFloat "1e23" = (S754_finite false 5960464477539062 24, None)
  /\ strconv.ParseFloat "9007199254740993" = (S754_finite false 4503599627370496 1, None)
  /\ strconv.ParseFloat "5e-324" = (S754_finite false 1 (-1074), None)
  /\ strconv.ParseFloat "2.4703282292062327e-324" = (S754_zero false, None)
  /\ strconv.ParseFloat "2.4703282292062328e-324" = (S754_finite false 1 (-1074), None)
  /\ strconv.ParseFloat "1.7976931348623158e308"
     = (S754_finite false 9007199254740991 971, None)
  /\ strconv.ParseFloat "1.7976931348623159e308"
     = (S754_infinity false, Some strconv.ErrRange)
  /\ strconv.ParseFloat "-0" = (S754_zero true, None)
  /\ strconv.ParseFloat "1_000.5" = strconv.ParseFloat "1000.5"
  /\ strconv.ParseFloat "0x1.8p1" = strconv.ParseFloat "3"
  /\ strconv.ParseFloat "-Infinity" = (S754_infinity true, None)
  /\ strconv.ParseFloat "NaN" = (S754_nan, None).
Proof. vm_compute. repeat split. Qed.

Example ParseFloat_syntax_errors :
  Forall (fun s => strconv.ParseFloat s = (S754_zero false, Some strconv.ErrSyntax))
    [EmptyString; "abc"; "12.50 "; " 12.50"; "1e"; "1_"; "_1"; "1__0"; "0x"; "0x1";
     "+nan"; "infi"; "1.2.3"; "."; "$5"; "1e5x"; "1e999x"]%string.
Proof. repeat constructor. Qed.

Example Mod_Ceil_known :
  math.Mod (fst (strconv.ParseFloat "10.25")) f0_25 = S754_zero false
  /\ math.Mod (fst (strconv.ParseFloat "-10.25")) f0_25 = S754_zero true
  /\ math.Mod (fst (strconv.ParseFloat "10.20")) f0_25
     = fst (strconv.ParseFloat "0.1999999999999993")
  /\ math.Mod (fst (strconv.ParseFloat "5.5")) (fst (strconv.ParseFloat "2"))
     = fst (strconv.ParseFloat "1.5")
  /\ math.Ceil (fst (strconv.ParseFloat "2.000001")) = fst (strconv.ParseFloat "3")
  /\ math.Ceil (fst (strconv.ParseFloat "-2.5")) = fst (strconv.ParseFloat "-2")
  /\ math.Ceil (fst (strconv.ParseFloat "-0.5")) = S754_zero true
  /\ int_of_float64 (fst (strconv.ParseFloat "-2.5")) = -2
  /\ int_of_float64 (fst (strconv.ParseFloat "1e19")) = minInt.
Proof. vm_compute. repeat split. Qed.

Example time_Parse_known :
  time.absDate (fst (time.Parse time.layoutDate "2022-03-20")) = (2022, 3, 20)
  /\ time.absDate (fst (time.Parse time.layoutDate "2024-02-29")) = (2024, 2, 29)
  /\ time.absDate (fst (time.Parse time.layoutDate "0000-12-31")) = (0, 12, 31)
  /\ time.Parse time.layoutDate "2023-02-29" = (time.zeroTime, Some time.ParseError)
  /\ time.Parse time.layoutDate "2022-1-01" = (time.zeroTime, Some time.ParseError)
  /\ time.Parse time.layoutDate "2022-01-01 " = (time.zeroTime, Some time.ParseError)
  /\ time.absDate (fst (time.Parse time.layoutTime "14:33")) = (0, 1, 1)
  /\ time.Hour (fst (time.Parse time.layoutTime "9:05")) = 9
  /\ time.Parse time.layoutTime "24:00" = (time.zeroTime, Some time.ParseError)
  /\ time.Parse time.layoutTime "14:5" = (time.zeroTime, Some time.ParseError).
Proof. vm_compute. repeat split. Qed.

Example calendar_round_trip :
  forallb calendarYearOk [0; 1; 4; 100; 400; 1900; 2000; 2022; 2023; 2024; 9999] = true.
Proof. vm_compute. reflexivity. Qed.

(** The two receipts of the published examples of the exercise score 28 and
    109 points. *)
Example calculatePoints_known :
  fst (calculatePoints targetReceipt initial) = 28
  /\ fst (calculatePoints marketReceipt initial) = 109.
Proof. split; reflexivity. Qed.

(** X18: a purchase time that is written [HH:MM] with an hour below 24 and a
    minute below 60 parses to that hour and minute, and rule 8 contributes
    10 points exactly when the hour is 14 or 15. *)
Theorem rule8Points_clock h m :
  0 <= h < 24 -> 0 <= m < 60 ->
  let t := fst (time.Parse time.layoutTime (clock h m)) in
  snd (time.Parse time.layoutTime (clock h m)) = None
  /\ time.Hour t = h
  /\ time.Minute t = m
  /\ rule8Points (clock h m) = if (h =? 14) || (h =? 15) then 10 else 0.
Proof.
  intros Hh Hm. destruct (Parse_clock h m Hh Hm) as (H0 & H1 & H2).
  cbv zeta. repeat split; try assumption.
  unfold rule8Points. cbv zeta. rewrite H1, H2.
  replace (m <? 60) with true by (symmetry; apply Z.ltb_lt; lia).
  by rewrite andb_true_r.
Qed.

(** ** The claims *)

(** C1, as stated, fails: an item whose description is empty (trimmed length
    0) passes the test of rule 5 and earns [ceil(10.00 * 0.2) = 2] points,
    which the program prints and adds to the score. *)
Lemma empty_description_earns_bonus :
  len (strings.TrimSpace (ShortDescription emptyDescriptionItem)) = 0
  /\ rule5Loop [emptyDescriptionItem] 0 initial
     = (2, printed initial
             [mkLine "Rule 5: +%d points for item description (%s)\n"
                     [ArgInt 2; ArgString EmptyString]])
  /\ fst (calculatePoints (blankReceipt [emptyDescriptionItem]) initial) = 33
  /\ fst (calculatePoints (blankReceipt []) initial) = 31.
Proof. repeat split. Qed.

(** C1, amended: for every item of a receipt, the loop of rule 5 adds
    [int(math.Ceil(price * 0.2))] for that item exactly when the length of
    its trimmed short description is a multiple of 3, zero included, and
    adds nothing for it otherwise; an item whose trimmed description is
    empty earns the bonus. *)
Theorem rule5_item_contribution
    (pre post : list Item) (item : Item) (w w' : World) :
  let n := len (strings.TrimSpace (ShortDescription item)) in
  fst (rule5Loop (pre ++ item :: post) 0 w)
  = add64 (fst (rule5Loop (pre ++ post) 0 w'))
          (if Z.rem n 3 =? 0 then bonus item else 0)
  /\ (n = 0 ->
      fst (rule5Loop (pre ++ item :: post) 0 w)
      = add64 (fst (rule5Loop (pre ++ post) 0 w')) (bonus item)).
Proof.
  cbv zeta.
  assert (R : minInt <= 0 <= maxInt) by (unfold minInt, maxInt; lia).
  assert (E : fst (rule5Loop (pre ++ item :: post) 0 w)
              = add64 (fst (rule5Loop (pre ++ post) 0 w')) (itemPoints item)).
  { rewrite !rule5Loop_run by exact R. simpl fst.
    rewrite !rule5Exact_app. simpl rule5Exact. unfold add64. wrap64_eq. }
  split; [exact E|].
  intros Hn. rewrite E. unfold itemPoints. rewrite Hn. reflexivity.
Qed.

Lemma rule5_item_contribution_witness :
  fst (rule5Loop ([] ++ emptyDescriptionItem :: []) 0 initial)
  = add64 (fst (rule5Loop ([] ++ []) 0 initial)) (bonus emptyDescriptionItem).
Proof.
  apply (proj2 (rule5_item_contribution [] [] emptyDescriptionItem initial initial)).
  reflexivity.
Defined.

(** C2, as stated, fails: a receipt with one item of three letters and the
    price [-1000.00] scores [25 + 6 - 200 = -169]. *)
Lemma negative_price_negative_score :
  fst (calculatePoints (blankReceipt [negativePriceItem]) initial) = -169
  /\ ~ 0 <= fst (calculatePoints (blankReceipt [negativePriceItem]) initial).
Proof. split; [reflexivity | vm_compute; intros H; apply H; reflexivity]. Qed.

(** C2, amended: for every receipt [calculatePoints] returns an [int]; a
    price that is not a well-formed number earns nothing; and when every
    price reads as a number from 0 up to, not including, [2^60], no item
    contributes a negative amount under rule 5, and the result is the sum of
    the contributions of the rules, which is not negative, provided that
    sum does not exceed the largest [int]. *)
Theorem calculatePoints_returns_and_sign (receipt : Receipt) (w : World) :
  (exists n w', calculatePoints receipt w = (n, w') /\ minInt <= n <= maxInt)
  /\ (forall item, In item (Items receipt) ->
      snd (strconv.ParseFloat (Price item)) = Some strconv.ErrSyntax ->
      itemPoints item = 0)
  /\ ((forall item, In item (Items receipt) -> priceInRange (Price item) = true) ->
      (forall item, In item (Items receipt) -> 0 <= itemPoints item)
      /\ (exactScore receipt <= maxInt ->
          fst (calculatePoints receipt w) = exactScore receipt
          /\ 0 <= fst (calculatePoints receipt w))).
Proof.
  split; [|split].
  - rewrite calculatePoints_run. eexists _, _. split; [reflexivity|].
    apply wrap64_range.
  - intros item _ H. unfold itemPoints. rewrite (bonus_syntax_error item H).
    by destruct (_ =? _).
  - intros Hprices.
    assert (H5 : forall item, In item (Items receipt) -> 0 <= itemPoints item).
    { intros item Hi. apply itemPoints_nonneg. by apply Hprices. }
    split; [exact H5|].
    intros Hmax. rewrite calculatePoints_fst.
    assert (0 <= exactScore receipt).
    { unfold exactScore.
      pose proof (rule1Points_nonneg (Retailer receipt)).
      pose proof (rule2Points_nonneg (Total receipt)).
      pose proof (rule3Points_nonneg (Total receipt)).
      pose proof (rule4Exact_nonneg (Items receipt)).
      pose proof (rule5Exact_nonneg (Items receipt) H5).
      pose proof (rule7Points_nonneg (PurchaseDate receipt)).
      pose proof (rule8Points_nonneg (PurchaseTime receipt)). lia. }
    rewrite wrap64_id by (unfold minInt; lia). split; [reflexivity | assumption].
Qed.

Lemma calculatePoints_returns_and_sign_witness :
  fst (calculatePoints targetReceipt initial) = exactScore targetReceipt
  /\ 0 <= fst (calculatePoints targetReceipt initial).
Proof.
  apply (proj2 (proj2 (proj2 (calculatePoints_returns_and_sign targetReceipt initial))
                 ltac:(intros item Hi; simpl in Hi;
                       repeat (destruct Hi as [<-|Hi]; [vm_compute; reflexivity|]);
                       destruct Hi))).
  vm_compute. congruence.
Defined.

(** The bound on the sum in the amended C2 is needed: prices in the range
    can add up beyond the largest [int], and the sum wraps around. *)
Remark large_prices_wrap_around :
  forallb (fun item => priceInRange (Price item)) (Items largePricesReceipt) = true
  /\ map itemPoints (Items largePricesReceipt) = repeat (2 * 10 ^ 17) 50
  /\ exactScore largePricesReceipt = 10 ^ 19 + 156
  /\ fst (calculatePoints largePricesReceipt initial) = 10 ^ 19 + 156 - 2 ^ 64.
Proof. vm_compute. repeat split. Qed.

(** Prices out of the range of the amended C2: a negative one, one that is
    too large for the conversion [int(f)], an infinity and a NaN; each
    contributes a negative amount. *)
Remark prices_out_of_range :
  map (fun price => (priceInRange price, itemPoints (mkItem "abc" price)))
      ["-1000.00"; "1e30"; "Inf"; "NaN"]
  = [(false, -200); (false, minInt); (false, minInt); (false, minInt)].
Proof. vm_compute. reflexivity. Qed.

(** C3: rule 8 contributes 10 points exactly when the parsed purchase time
    lies in the half-open interval from 14:00 to 16:00, that is when its hour
    is 14 or 15, whatever the minute, and 0 points otherwise; the
    contribution is printed and is a term of the score.  ["14:33"] and
    ["15:59"] earn 10 points, ["16:00"] earns none. *)
Theorem rule8_half_open_interval (receipt : Receipt) (w : World) :
  let t := fst (time.Parse time.layoutTime (PurchaseTime receipt)) in
  let minutes := time.Hour t * 60 + time.Minute t in
  rule8Points (PurchaseTime receipt)
  = (if (14 * 60 <=? minutes) && (minutes <? 16 * 60) then 10 else 0)
  /\ rule8Points (PurchaseTime receipt)
     = (if (time.Hour t =? 14) || (time.Hour t =? 15) then 10 else 0)
  /\ fst (calculatePoints receipt w)
     = wrap64 (rule1Points (Retailer receipt) + rule2Points (Total receipt)
               + rule3Points (Total receipt) + rule4Exact (Items receipt)
               + rule5Exact (Items receipt) + rule7Points (PurchaseDate receipt)
               + rule8Points (PurchaseTime receipt))
  /\ In (mkLine "Rule 8: %d points for purchase time (%s)\n"
           [ArgInt (rule8Points (PurchaseTime receipt));
            ArgString (PurchaseTime receipt)])
        (stdout (snd (calculatePoints receipt w)))
  /\ rule8Points "14:33" = 10
  /\ rule8Points "15:59" = 10
  /\ rule8Points "16:00" = 0.
Proof.
  cbv zeta.
  set (t := fst (time.Parse time.layoutTime (PurchaseTime receipt))).
  pose proof (Minute_range t) as Hm.
  pose proof (Hour_range t) as Hh.
  assert (E : rule8Points (PurchaseTime receipt)
              = if (time.Hour t =? 14) || (time.Hour t =? 15) then 10 else 0).
  { unfold rule8Points. fold t. cbv zeta.
    replace (time.Minute t <? 60) with true by (symmetry; apply Z.ltb_lt; lia).
    by rewrite andb_true_r. }
  split; [|split; [exact E|split; [|split]]].
  - rewrite E.
    destruct (Z.eqb_spec (time.Hour t) 14) as [H14|H14];
    destruct (Z.eqb_spec (time.Hour t) 15) as [H15|H15]; simpl orb;
    destruct (Z.leb_spec (14 * 60) (time.Hour t * 60 + time.Minute t));
    destruct (Z.ltb_spec (time.Hour t * 60 + time.Minute t) (16 * 60));
    simpl; try reflexivity; lia.
  - apply calculatePoints_fst.
  - rewrite calculatePoints_stdout. unfold logOf.
    rewrite !in_app_iff. right. right. simpl. auto.
  - repeat split.
Qed.

(** C4: rule 2 contributes 50 points exactly when the text of the total ends
    with [.00], and 0 points otherwise; the contribution is printed and is a
    term of the score.  The test reads the text, not the number: ["35.00"]
    earns 50 points and ["35.10"] none, while ["35"] and ["35.000"], which
    denote the same number as ["35.00"], earn none, and ["n/a.00"], which
    denotes no number, earns 50. *)
Theorem rule2_suffix_of_text (receipt : Receipt) (w : World) :
  ((exists prefix, Total receipt = prefix +:+ ".00")
   <-> rule2Points (Total receipt) = 50)
  /\ (~ (exists prefix, Total receipt = prefix +:+ ".00")
      <-> rule2Points (Total receipt) = 0)
  /\ fst (calculatePoints receipt w)
     = wrap64 (rule1Points (Retailer receipt) + rule2Points (Total receipt)
               + rule3Points (Total receipt) + rule4Exact (Items receipt)
               + rule5Exact (Items receipt) + rule7Points (PurchaseDate receipt)
               + rule8Points (PurchaseTime receipt))
  /\ In (mkLine "Rule 2: %d points for total (%s)\n"
           [ArgInt (rule2Points (Total receipt)); ArgString (Total receipt)])
        (stdout (snd (calculatePoints receipt w)))
  /\ rule2Points "35.00" = 50
  /\ rule2Points "35.10" = 0
  /\ (rule2Points "35" = 0 /\ rule2Points "35.000" = 0
      /\ strconv.ParseFloat "35" = strconv.ParseFloat "35.00"
      /\ strconv.ParseFloat "35.000" = strconv.ParseFloat "35.00")
  /\ (rule2Points "n/a.00" = 50
      /\ snd (strconv.ParseFloat "n/a.00") = Some strconv.ErrSyntax).
Proof.
  pose proof (HasSuffix_spec (Total receipt) ".00") as S.
  unfold rule2Points at 1 2.
  split; [|split; [|split; [|split]]].
  - rewrite <- S. destruct (strings.HasSuffix _ _); split; congruence.
  - rewrite <- S. destruct (strings.HasSuffix _ _); split; congruence.
  - apply calculatePoints_fst.
  - rewrite calculatePoints_stdout. unfold logOf.
    rewrite in_app_iff. right. simpl. auto.
  - vm_compute. repeat split.
Qed.

(** C5: the score does not depend on whether the total exceeds 10.00: two
    receipts that differ in the total only, the two totals agreeing on the
    test of rule 2 (the text ends with [.00]) and on the test of rule 3 (the
    number is a multiple of 0.25), have the same score. *)
Theorem score_ignores_total_above_10
    (receipt : Receipt) (total1 total2 : string) (w1 w2 : World) :
  strings.HasSuffix total1 ".00" = strings.HasSuffix total2 ".00" ->
  multipleOfQuarter total1 = multipleOfQuarter total2 ->
  fst (calculatePoints (withTotal receipt total1) w1)
  = fst (calculatePoints (withTotal receipt total2) w2).
Proof.
  intros H2 H3. rewrite !calculatePoints_fst. unfold exactScore. simpl.
  unfold rule2Points, rule3Points. by rewrite H2, H3.
Qed.

Lemma score_ignores_total_above_10_witness :
  (SFltb (fst (strconv.ParseFloat "9.00")) (fst (strconv.ParseFloat "10.00")) = true
   /\ SFltb (fst (strconv.ParseFloat "10.00")) (fst (strconv.ParseFloat "11.00")) = true)
  /\ fst (calculatePoints (withTotal marketReceipt "9.00") initial)
     = fst (calculatePoints (withTotal marketReceipt "11.00") initial).
Proof.
  split; [split; reflexivity|].
  apply (score_ignores_total_above_10 marketReceipt "9.00" "11.00" initial initial);
    reflexivity.
Defined.

(** C6: [calculatePoints] is deterministic and its only effect is to print:
    for every receipt there are an integer and a list of lines such that, in
    every state of the process, the call returns that integer, leaves the
    two maps of the store as they are and appends those lines to the
    standard output; two calls in a row return the same integer. *)
Theorem calculatePoints_deterministic (receipt : Receipt) :
  exists (n : Z) (lines : list line),
    (forall w, calculatePoints receipt w
               = (n, mkWorld (receipts w) (points w) (stdout w ++ lines)))
    /\ (forall w, (a <- calculatePoints receipt ;;
                   b <- calculatePoints receipt ;; ret (a, b)) w
                  = ((n, n), mkWorld (receipts w) (points w)
                                     (stdout w ++ lines ++ lines))).
Proof.
  exists (wrap64 (exactScore receipt)), (logOf receipt). split.
  - intros w. rewrite calculatePoints_run. reflexivity.
  - intros w. unfold bind, ret. rewrite !calculatePoints_run.
    rewrite printed_app. reflexivity.
Qed.

(** C7: once a submission has issued an identifier, the score stored under
    it stays the score computed at that submission, whatever calls follow,
    the identifiers generated being unique: every entry of the store is
    kept by every sequence of calls; a fetch leaves the whole state as it
    is; a submission changes no entry of [points] or [receipts] other than
    that of its own identifier. *)
Theorem issued_score_never_changes
    (uuid : string) (r : http.Request) (receipt : Receipt)
    (cs : list call) (w : World) :
  http.Method r = http.MethodPost ->
  http.Decode r = Some receipt ->
  uniqueIds (Submit uuid r :: cs) w ->
  let score := fst (calculatePoints receipt w) in
  points (snd (handleProcessReceipt uuid r w)) !! uuid = Some score
  /\ points (serveAll (Submit uuid r :: cs) w) !! uuid = Some score
  /\ (forall id p, points w !! id = Some p ->
                   points (serveAll (Submit uuid r :: cs) w) !! id = Some p)
  /\ (forall r' w', snd (handleGetPoints r' w') = w')
  /\ (forall uuid' r' w' id, id <> uuid' ->
        points (snd (handleProcessReceipt uuid' r' w')) !! id = points w' !! id
        /\ receipts (snd (handleProcessReceipt uuid' r' w')) !! id
           = receipts w' !! id).
Proof.
  intros Hm Hd Hu. cbv zeta.
  assert (E : points (snd (handleProcessReceipt uuid r w)) !! uuid
              = Some (fst (calculatePoints receipt w))).
  { rewrite (handleProcessReceipt_accepted _ _ receipt) by done.
    simpl. apply lookup_insert_eq. }
  split; [exact E|]. split; [|split; [|split]].
  - destruct Hu as [_ Hu]. simpl serveAll.
    apply serveAll_keeps; [exact Hu | exact E].
  - intros id p Hp. by apply serveAll_keeps.
  - apply handleGetPoints_state.
  - intros uuid' r' w' id Hne. split.
    + apply (serve_points_other (Submit uuid' r')).
      intros Hi. apply issued_Submit in Hi. destruct Hi as [-> _]. done.
    + apply (serve_receipts_other (Submit uuid' r')).
      intros Hi. apply issued_Submit in Hi. destruct Hi as [-> _]. done.
Qed.

Lemma issued_score_never_changes_witness :
  fst (calculatePoints targetReceipt initial) = 28
  /\ points (serveAll exampleCalls initial)
       !! "7fb1377b-b223-49d9-a31a-5a02701dd310"%string
     = Some (fst (calculatePoints targetReceipt initial)).
Proof.
  split; [reflexivity|].
  refine (proj1 (proj2 (issued_score_never_changes
            "7fb1377b-b223-49d9-a31a-5a02701dd310" (postReceipt targetReceipt)
            targetReceipt (tl exampleCalls) initial eq_refl eq_refl _))).
  vm_compute. repeat split.
Defined.

(** Without unique identifiers the invariant of C7 would fail: a submission
    under an identifier that is in use replaces its entry. *)
Remark submission_under_used_identifier_replaces :
  points (serveAll [Submit "id" (postReceipt targetReceipt);
                    Submit "id" (postReceipt marketReceipt)] initial)
    !! "id"%string = Some 109.
Proof. reflexivity. Qed.

(** C8: a fetch succeeds exactly when its identifier is in the store, which
    holds exactly the identifiers issued by the submissions served so far:
    for an identifier that is absent the answer is the not-found error, for
    one that is present it is the stored score, and the state is left as it
    is. *)
Theorem fetch_found_iff_stored (cs : list call) (r : http.Request) :
  http.Method r = http.MethodGet ->
  let w := serveAll cs initial in
  let id := default EmptyString (http.Vars r !! "id"%string) in
  (points w !! id = None <-> id ∉ issuedBy cs)
  /\ (points w !! id = None ->
      handleGetPoints r w
      = (http.Error "No receipt found for that ID" http.StatusNotFound, w))
  /\ (forall p, points w !! id = Some p ->
      handleGetPoints r w
      = (http.EncodePoints http.StatusOK "application/json"
           (mkPointsResponse p), w))
  /\ (http.StatusCode (fst (handleGetPoints r w)) = http.StatusOK
      <-> id ∈ issuedBy cs).
Proof.
  intros Hm. cbv zeta.
  set (w := serveAll cs initial).
  set (id := default EmptyString (http.Vars r !! "id"%string)).
  assert (R : handleGetPoints r w
              = match points w !! id with
                | None => (http.Error "No receipt found for that ID"
                                      http.StatusNotFound, w)
                | Some p => (http.EncodePoints http.StatusOK "application/json"
                               (mkPointsResponse p), w)
                end).
  { unfold handleGetPoints. rewrite Hm.
    change (String.eqb http.MethodGet http.MethodGet) with true.
    cbv beta iota delta [negb bind load ret]. fold id.
    destruct (points w !! id); reflexivity. }
  assert (D : is_Some (points w !! id) <-> id ∈ issuedBy cs).
  { pose proof (serveAll_dom cs initial id) as D. fold w in D.
    change (points initial) with (∅ : gmap string Z) in D.
    rewrite lookup_empty in D. rewrite D. split; [|by right].
    intros [[? [=]]|Hi]. exact Hi. }
  split; [|split; [|split; [|split]]].
  - rewrite eq_None_not_Some, D. tauto.
  - intros H. rewrite R, H. reflexivity.
  - intros p H. rewrite R, H. reflexivity.
  - intros H. apply D. rewrite R in H. destruct (points w !! id); [eauto|].
    simpl in H. discriminate.
  - intros H. apply D in H. destruct H as [p H]. rewrite R, H. reflexivity.
Qed.

Lemma fetch_found_iff_stored_witness :
  handleGetPoints (getPoints "adb6b560-0eef-42bc-9d16-df48f30e89b2")
                  (serveAll exampleCalls initial)
  = (http.EncodePoints http.StatusOK "application/json" (mkPointsResponse 109),
     serveAll exampleCalls initial)
  /\ handleGetPoints (getPoints "no-such-id") (serveAll exampleCalls initial)
     = (http.Error "No receipt found for that ID" http.StatusNotFound,
        serveAll exampleCalls initial).
Proof.
  split.
  - apply (proj1 (proj2 (proj2 (fetch_found_iff_stored exampleCalls
             (getPoints "adb6b560-0eef-42bc-9d16-df48f30e89b2") eq_refl)))).
    reflexivity.
  - apply (proj1 (proj2 (fetch_found_iff_stored exampleCalls
             (getPoints "no-such-id") eq_refl))).
    reflexivity.
Defined.

(** C9: when the purchase date does not parse, the error is dropped and the
    zero [Time] is used, whose day of the month is 1; rule 7 then contributes
    6 points, which are printed and are a term of the score. *)
Theorem unparsable_date_earns_6 (receipt : Receipt) (w : World) :
  snd (time.Parse time.layoutDate (PurchaseDate receipt)) <> None ->
  fst (time.Parse time.layoutDate (PurchaseDate receipt)) = time.zeroTime
  /\ time.Day time.zeroTime = 1
  /\ rule7Points (PurchaseDate receipt) = 6
  /\ fst (calculatePoints receipt w)
     = wrap64 (rule1Points (Retailer receipt) + rule2Points (Total receipt)
               + rule3Points (Total receipt) + rule4Exact (Items receipt)
               + rule5Exact (Items receipt) + 6
               + rule8Points (PurchaseTime receipt))
  /\ In (mkLine "Rule 7: %d points for odd purchase date (%s)\n"
           [ArgInt 6; ArgString (PurchaseDate receipt)])
        (stdout (snd (calculatePoints receipt w))).
Proof.
  intros H. pose proof (Parse_error _ _ H) as Z0.
  assert (E : rule7Points (PurchaseDate receipt) = 6).
  { unfold rule7Points. rewrite Z0. reflexivity. }
  split; [exact Z0|]. split; [reflexivity|]. split; [exact E|]. split.
  - rewrite calculatePoints_fst. unfold exactScore. by rewrite E.
  - rewrite calculatePoints_stdout. unfold logOf. rewrite E.
    rewrite !in_app_iff. right. right. simpl. auto.
Qed.

Lemma unparsable_date_earns_6_witness :
  rule7Points (PurchaseDate badDateReceipt) = 6
  /\ fst (calculatePoints badDateReceipt initial) = 6 + 6.
Proof.
  pose proof (unparsable_date_earns_6 badDateReceipt initial
                ltac:(vm_compute; discriminate)) as (_ & _ & H7 & H & _).
  split; [exact H7 | rewrite H; reflexivity].
Defined.

(** C10, as stated, fails: the total ["1e999"] does not parse
    ([strconv.ParseFloat] returns a range error), the value used is
    [+Inf] and not 0, and rule 3 contributes nothing. *)
Lemma range_error_total_earns_nothing :
  strconv.ParseFloat (Total hugeTotalReceipt)
  = (S754_infinity false, Some strconv.ErrRange)
  /\ rule3Points (Total hugeTotalReceipt) = 0
  /\ In (mkLine "Rule 3: %d points for total (%s)\n"
           [ArgInt 0; ArgString "1e999"])
        (stdout (snd (calculatePoints hugeTotalReceipt initial)))
  /\ fst (calculatePoints hugeTotalReceipt initial) = 6.
Proof. vm_compute. repeat split; auto. Qed.

(** C10, amended: when [strconv.ParseFloat] returns an error for the total,
    the error is dropped.  If the total is not a well-formed number (a
    syntax error) the value used is 0, an exact multiple of 0.25, and rule 3
    contributes 25 points; if it is well formed but out of range (a range
    error) the value used is an infinity and rule 3 contributes nothing.  The
    contribution is printed and is a term of the score. *)
Theorem unparsable_total_rule3 (receipt : Receipt) (w : World) (e : strconv.error) :
  snd (strconv.ParseFloat (Total receipt)) = Some e ->
  let total := fst (strconv.ParseFloat (Total receipt)) in
  let rule3 := match e with strconv.ErrSyntax => 25 | strconv.ErrRange => 0 end in
  match e with
  | strconv.ErrSyntax => total = S754_zero false /\ math.Mod total f0_25 = f0
  | strconv.ErrRange => strconv.is_infinity total = true
                        /\ math.Mod total f0_25 = S754_nan
  end
  /\ rule3Points (Total receipt) = rule3
  /\ fst (calculatePoints receipt w)
     = wrap64 (rule1Points (Retailer receipt) + rule2Points (Total receipt)
               + rule3 + rule4Exact (Items receipt)
               + rule5Exact (Items receipt) + rule7Points (PurchaseDate receipt)
               + rule8Points (PurchaseTime receipt))
  /\ In (mkLine "Rule 3: %d points for total (%s)\n"
           [ArgInt rule3; ArgString (Total receipt)])
        (stdout (snd (calculatePoints receipt w))).
Proof.
  intros H. cbv zeta.
  pose proof (ParseFloat_error (Total receipt)) as P. rewrite H in P.
  assert (E : rule3Points (Total receipt)
              = match e with strconv.ErrSyntax => 25 | strconv.ErrRange => 0 end).
  { unfold rule3Points, multipleOfQuarter. destruct e.
    - rewrite P. reflexivity.
    - destruct (fst (strconv.ParseFloat (Total receipt))); try discriminate.
      reflexivity. }
  split; [|split; [exact E|split]].
  - destruct e.
    + rewrite P. split; reflexivity.
    + split; [exact P|].
      destruct (fst (strconv.ParseFloat (Total receipt))); try discriminate.
      reflexivity.
  - rewrite calculatePoints_fst. unfold exactScore. by rewrite E.
  - rewrite calculatePoints_stdout. unfold logOf. rewrite E.
    rewrite in_app_iff. right. simpl. auto.
Qed.

Lemma unparsable_total_rule3_witness :
  rule3Points (Total badTotalReceipt) = 25
  /\ fst (calculatePoints badTotalReceipt initial) = 6 + 25.
Proof.
  pose proof (unparsable_total_rule3 badTotalReceipt initial strconv.ErrSyntax
                eq_refl) as (_ & H3 & H & _).
  split; [exact H3 | rewrite H; reflexivity].
Defined.

(** ** Further properties: the handlers and the store *)

Lemma accepted_issued c :
  match accepted c with
  | Some receipt => exists uuid r,
      c = Submit uuid r /\ issued c = Some uuid
      /\ http.Method r = http.MethodPost /\ http.Decode r = Some receipt
  | None => issued c = None
  end.
Proof.
  destruct c as [uuid r|r]; simpl; [|reflexivity].
  destruct (String.eqb (http.Method r) http.MethodPost) eqn:E; [|reflexivity].
  apply String.eqb_eq in E.
  destruct (http.Decode r) as [receipt|] eqn:D; [|reflexivity].
  exists uuid, r. rewrite D. auto.
Qed.

Lemma scoreOf_run receipt w : fst (calculatePoints receipt w) = scoreOf receipt.
Proof. unfold scoreOf. by rewrite !calculatePoints_fst. Qed.

Lemma printedBy_logOf receipt : printedBy receipt = logOf receipt.
Proof. unfold printedBy. by rewrite calculatePoints_stdout. Qed.

(** The state after a call is served. *)
Lemma serve_state c w :
  snd (serve c w)
  = match issued c, accepted c with
    | Some uuid, Some receipt =>
      mkWorld (<[uuid := receipt]> (receipts w))
              (<[uuid := scoreOf receipt]> (points w))
              (stdout w ++ printedBy receipt)
    | _, _ => w
    end.
Proof.
  pose proof (accepted_issued c) as A.
  destruct (accepted c) as [receipt|].
  - destruct A as (uuid & r & -> & -> & Hm & Hd). simpl serve.
    rewrite (handleProcessReceipt_accepted _ _ receipt) by done.
    rewrite scoreOf_run, printedBy_logOf. reflexivity.
  - rewrite A. destruct c as [uuid r|r]; simpl serve.
    + by apply handleProcessReceipt_rejected.
    + apply handleGetPoints_state.
Qed.

(** X1: a submission that is accepted and a fetch of the identifier it
    returned: the submission answers 200 with the generated identifier, the
    store then holds the receipt and its score under it, and the fetch
    answers 200 with that score and leaves the state as it is. *)
Theorem submit_then_fetch
    (uuid : string) (r g : http.Request) (receipt : Receipt) (w : World) :
  http.Method r = http.MethodPost ->
  http.Decode r = Some receipt ->
  http.Method g = http.MethodGet ->
  http.Vars g !! "id"%string = Some uuid ->
  let w1 := snd (handleProcessReceipt uuid r w) in
  fst (handleProcessReceipt uuid r w)
  = http.EncodeID http.StatusOK "application/json" (mkIDResponse uuid)
  /\ receipts w1 !! uuid = Some receipt
  /\ points w1 !! uuid = Some (fst (calculatePoints receipt w))
  /\ handleGetPoints g w1
     = (http.EncodePoints http.StatusOK "application/json"
          (mkPointsResponse (fst (calculatePoints receipt w))), w1).
Proof.
  intros Hm Hd Hg Hv. cbv zeta.
  rewrite (handleProcessReceipt_accepted _ _ receipt) by done.
  simpl fst. simpl snd. split; [reflexivity|].
  split; [apply lookup_insert_eq|]. split; [apply lookup_insert_eq|].
  unfold handleGetPoints. rewrite Hg, Hv.
  change (String.eqb http.MethodGet http.MethodGet) with true.
  change (default EmptyString (Some uuid)) with uuid.
  cbv beta iota delta [negb bind load ret]. cbn [points].
  rewrite lookup_insert_eq. reflexivity.
Qed.

Lemma submit_then_fetch_witness :
  handleGetPoints (getPoints "7fb1377b-b223-49d9-a31a-5a02701dd310")
    (snd (handleProcessReceipt "7fb1377b-b223-49d9-a31a-5a02701dd310"
            (postReceipt targetReceipt) initial))
  = (http.EncodePoints http.StatusOK "application/json"
       (mkPointsResponse (fst (calculatePoints targetReceipt initial))),
     snd (handleProcessReceipt "7fb1377b-b223-49d9-a31a-5a02701dd310"
            (postReceipt targetReceipt) initial)).
Proof.
  apply (submit_then_fetch "7fb1377b-b223-49d9-a31a-5a02701dd310"
           (postReceipt targetReceipt)
           (getPoints "7fb1377b-b223-49d9-a31a-5a02701dd310")
           targetReceipt initial); reflexivity.
Defined.

(** X2: a submission changes the state exactly when it answers 200, which
    it does exactly when the method is POST and the body decodes; the state
    then holds the receipt and its score under the generated identifier, and
    the standard output has the lines of [calculatePoints] more.  It answers
    405 when the method is not POST, whatever the body, 400 when the method
    is POST and the body does not decode, and in both cases nothing is
    scored, printed or stored. *)
Theorem submission_rejected_or_stored (uuid : string) (r : http.Request) (w : World) :
  (http.StatusCode (fst (handleProcessReceipt uuid r w)) = http.StatusOK
   <-> http.Method r = http.MethodPost /\ is_Some (http.Decode r))
  /\ (snd (handleProcessReceipt uuid r w) <> w
      <-> http.StatusCode (fst (handleProcessReceipt uuid r w)) = http.StatusOK)
  /\ (forall receipt,
      http.Method r = http.MethodPost -> http.Decode r = Some receipt ->
      let w' := snd (handleProcessReceipt uuid r w) in
      receipts w' !! uuid = Some receipt
      /\ points w' !! uuid = Some (fst (calculatePoints receipt w))
      /\ stdout w' = stdout w ++ printedBy receipt
      /\ printedBy receipt <> [])
  /\ (http.Method r <> http.MethodPost ->
      handleProcessReceipt uuid r w
      = (http.Error "Method not allowed" http.StatusMethodNotAllowed, w))
  /\ (http.Method r = http.MethodPost -> http.Decode r = None ->
      handleProcessReceipt uuid r w
      = (http.Error "Invalid request payload" http.StatusBadRequest, w)).
Proof.
  destruct (String.eqb_spec (http.Method r) http.MethodPost) as [Hm|Hm].
  - destruct (http.Decode r) as [receipt|] eqn:Hd.
    + rewrite (handleProcessReceipt_accepted _ _ receipt) by done.
      assert (N : printedBy receipt <> [])
        by (rewrite printedBy_logOf; discriminate).
      split; [|split; [|split; [|split; [congruence|discriminate]]]].
      * simpl. split; eauto.
      * simpl. split; [reflexivity|]. intros _ E.
        apply (f_equal stdout) in E. simpl in E.
        rewrite <- (app_nil_r (stdout w)) in E at 2.
        apply app_inv_head in E. rewrite <- printedBy_logOf in E. contradiction.
      * intros receipt' _ [= <-]. cbv zeta. simpl.
        rewrite !lookup_insert_eq, printedBy_logOf. auto.
    + assert (E : handleProcessReceipt uuid r w
                  = (http.Error "Invalid request payload"
                                http.StatusBadRequest, w)).
      { unfold handleProcessReceipt. rewrite Hm, Hd. reflexivity. }
      rewrite E. split; [|split; [|split; [|split; [congruence|reflexivity]]]].
      * simpl. split; [discriminate|]. intros [_ [? [=]]].
      * simpl. split; [contradiction|discriminate].
      * intros receipt' _ [=].
  - assert (E : handleProcessReceipt uuid r w
                = (http.Error "Method not allowed"
                              http.StatusMethodNotAllowed, w)).
    { unfold handleProcessReceipt.
      destruct (String.eqb_spec (http.Method r) http.MethodPost);
        [contradiction|reflexivity]. }
    rewrite E. split; [|split; [|split; [|split; [reflexivity|congruence]]]].
    + simpl. split; [discriminate|]. intros [? _]. congruence.
    + simpl. split; [contradiction|discriminate].
    + intros receipt' Hp. contradiction.
Qed.

Lemma submission_rejected_or_stored_witness :
  handleProcessReceipt "id" (http.mkRequest "PUT" (Some targetReceipt) ∅) initial
  = (http.Error "Method not allowed" http.StatusMethodNotAllowed, initial)
  /\ handleProcessReceipt "id" (http.mkRequest "POST" None ∅) initial
     = (http.Error "Invalid request payload" http.StatusBadRequest, initial).
Proof.
  split.
  - apply (proj1 (proj2 (proj2 (proj2 (submission_rejected_or_stored "id"
             (http.mkRequest "PUT" (Some targetReceipt) ∅) initial))))).
    discriminate.
  - apply (proj2 (proj2 (proj2 (proj2 (submission_rejected_or_stored "id"
             (http.mkRequest "POST" None ∅) initial))))); reflexivity.
Defined.

(** X3: any sequence of fetches and of submissions that are rejected leaves
    the whole state of the process as it is: the two maps and the standard
    output. *)
Theorem rejected_calls_change_nothing (cs : list call) (w : World) :
  Forall (fun c => accepted c = None) cs -> serveAll cs w = w.
Proof.
  revert w. induction cs as [|c cs IH]; intros w H; [reflexivity|].
  inversion H as [|? ? Hc Hcs]; subst. simpl.
  rewrite serve_state, Hc.
  destruct (issued c); by apply IH.
Qed.

Lemma rejected_calls_change_nothing_witness :
  serveAll [Fetch (getPoints "no-such-id");
            Submit "id" (http.mkRequest "POST" None ∅);
            Submit "id" (http.mkRequest "GET" (Some targetReceipt) ∅)]
           (serveAll exampleCalls initial)
  = serveAll exampleCalls initial.
Proof.
  apply rejected_calls_change_nothing. repeat constructor.
Defined.

Lemma serve_consistent c w : consistent w -> consistent (snd (serve c w)).
Proof.
  intros Hw id. rewrite serve_state.
  pose proof (accepted_issued c) as A.
  destruct (accepted c) as [receipt|].
  - destruct A as (uuid & r & _ & -> & _). simpl.
    destruct (decide (id = uuid)) as [->|Hne].
    + rewrite !lookup_insert_eq. eauto.
    + rewrite !lookup_insert_ne by done. apply Hw.
  - destruct (issued c); apply Hw.
Qed.

(** X4: in every state that the service reaches from the initial one,
    whatever the calls and the identifiers generated, the two maps agree:
    [receipts] and [points] have the same identifiers, and the score stored
    under an identifier is the score of the receipt stored under it. *)
Theorem store_consistent (cs : list call) (id : string) :
  let w := serveAll cs initial in
  (receipts w !! id = None <-> points w !! id = None)
  /\ (forall p, points w !! id = Some p ->
      exists receipt, receipts w !! id = Some receipt
                      /\ p = fst (calculatePoints receipt w)).
Proof.
  cbv zeta.
  assert (C : forall cs w, consistent w -> consistent (serveAll cs w)).
  { clear. induction cs as [|c cs IH]; intros w Hw; [exact Hw|].
    simpl. apply IH. by apply serve_consistent. }
  assert (I : consistent initial) by (intros i; reflexivity).
  pose proof (C cs initial I id) as H.
  destruct (points (serveAll cs initial) !! id) as [p|].
  - destruct H as (receipt & Hr & ->). split.
    + rewrite Hr. split; discriminate.
    + intros p [= <-]. exists receipt. by rewrite scoreOf_run.
  - split; [tauto | discriminate].
Qed.

(** X5: when the calls are served one after the other, none starting before
    the one before it has answered, the standard output after them is the
    output before them followed by the lines of the accepted submissions, in
    the order of the calls; a fetch and a rejected submission print
    nothing.  ([calculatePoints] prints before the handler takes the lock,
    so the lines of submissions that overlap can interleave: such runs are
    not sequences of calls, and this statement is not about them.) *)
Theorem stdout_of_calls (cs : list call) (w : World) :
  stdout (serveAll cs w)
  = stdout w
    ++ flat_map (fun c => match accepted c with
                          | Some receipt =>
                            stdout (snd (calculatePoints receipt initial))
                          | None => []
                          end) cs.
Proof.
  revert w. induction cs as [|c cs IH]; intros w; simpl.
  - by rewrite app_nil_r.
  - rewrite IH, serve_state.
    pose proof (accepted_issued c) as A.
    destruct (accepted c) as [receipt|].
    + destruct A as (uuid & r & _ & -> & _). fold (printedBy receipt).
      simpl stdout. by rewrite <- app_assoc.
    + by destruct (issued c).
Qed.

(** X6: the last accepted submission under an identifier decides what is
    stored under it: after any calls, an accepted submission under [uuid]
    and then calls that do not issue [uuid], the store holds the receipt of
    that submission and its score under [uuid]. *)
Theorem last_submission_wins
    (cs1 cs2 : list call) (uuid : string) (r : http.Request)
    (receipt : Receipt) (w : World) :
  http.Method r = http.MethodPost ->
  http.Decode r = Some receipt ->
  Forall (fun c => issued c <> Some uuid) cs2 ->
  let w' := serveAll (cs1 ++ Submit uuid r :: cs2) w in
  receipts w' !! uuid = Some receipt
  /\ points w' !! uuid = Some (fst (calculatePoints receipt w')).
Proof.
  intros Hm Hd H2. cbv zeta. rewrite scoreOf_run.
  assert (A : forall cs w, serveAll (cs1 ++ cs) w = serveAll cs (serveAll cs1 w)).
  { clear. induction cs1 as [|c cs1 IH]; intros cs w; [reflexivity|].
    simpl. apply IH. }
  rewrite A. simpl serveAll. set (w1 := serveAll cs1 w).
  rewrite (handleProcessReceipt_accepted _ _ receipt) by done. simpl snd.
  rewrite scoreOf_run.
  set (w2 := mkWorld _ _ _).
  assert (K : receipts w2 !! uuid = Some receipt
              /\ points w2 !! uuid = Some (scoreOf receipt)).
  { split; apply lookup_insert_eq. }
  clearbody w2. revert w2 K.
  induction H2 as [|c cs2 Hc H2 IH]; intros w2 K; [exact K|].
  simpl. apply IH.
  rewrite serve_points_other, serve_receipts_other by exact Hc. exact K.
Qed.

Lemma last_submission_wins_witness :
  points (serveAll ([Submit "id" (postReceipt targetReceipt)]
                    ++ Submit "id" (postReceipt marketReceipt)
                       :: [Fetch (getPoints "id");
                           Submit "other" (postReceipt targetReceipt)])
                   initial) !! "id"%string
  = Some 109.
Proof.
  refine (proj2 (last_submission_wins
            [Submit "id" (postReceipt targetReceipt)]
            [Fetch (getPoints "id"); Submit "other" (postReceipt targetReceipt)]
            "id" (postReceipt marketReceipt) marketReceipt initial
            eq_refl eq_refl _)).
  repeat constructor; discriminate.
Defined.

Lemma uniqueIds_stored_not_issued cs : forall w id,
  uniqueIds cs w -> is_Some (points w !! id) -> id ∉ issuedBy cs.
Proof.
  unfold issuedBy.
  induction cs as [|c cs IH]; intros w id Hu Hs; simpl.
  - apply not_elem_of_nil.
  - destruct Hu as [Hc Hu].
    assert (Hn : issued c <> Some id).
    { intros E. rewrite E in Hc. rewrite Hc in Hs. by destruct Hs. }
    assert (Hr : id ∉ omap issued cs).
    { apply (IH (snd (serve c w))); [exact Hu|].
      by rewrite serve_points_other. }
    destruct (issued c) as [id'|]; [|exact Hr].
    rewrite not_elem_of_cons. split; [congruence | exact Hr].
Qed.

(** X7: when the identifiers generated are unique, no submission is lost:
    the identifiers issued are pairwise distinct and [points] grows by one
    entry per accepted submission. *)
Theorem one_entry_per_submission (cs : list call) (w : World) :
  uniqueIds cs w ->
  NoDup (issuedBy cs)
  /\ size (points (serveAll cs w))
     = (size (points w) + length (issuedBy cs))%nat.
Proof.
  revert w. unfold issuedBy.
  induction cs as [|c cs IH]; intros w Hu.
  - simpl. split; [constructor | lia].
  - destruct Hu as [Hc Hu]. destruct (IH _ Hu) as (Hnd & Hp).
    simpl serveAll. rewrite Hp. clear Hp.
    pose proof (uniqueIds_stored_not_issued cs (snd (serve c w))) as Hfresh.
    pose proof (serve_points_issued c w) as Hi.
    rewrite serve_state in *.
    pose proof (accepted_issued c) as A.
    destruct (accepted c) as [receipt|] eqn:Ea.
    + destruct A as (uuid & r & _ & Ei & _). rewrite Ei in *.
      replace (omap issued (c :: cs)) with (uuid :: omap issued cs)
        by (simpl; by rewrite Ei).
      split.
      * constructor; [|exact Hnd]. apply (Hfresh uuid Hu). by apply Hi.
      * simpl points. rewrite map_size_insert_None by exact Hc.
        simpl length. lia.
    + rewrite A in *.
      replace (omap issued (c :: cs)) with (omap issued cs)
        by (simpl; by rewrite A).
      auto.
Qed.

Lemma one_entry_per_submission_witness :
  size (points (serveAll exampleCalls initial))
  = (size (points initial) + length (issuedBy exampleCalls))%nat.
Proof.
  refine (proj2 (one_entry_per_submission exampleCalls initial _)).
  vm_compute. repeat split.
Defined.

(** ** Further properties: [calculatePoints] *)

Lemma rule1Points_String c s :
  rule1Points (String c s)
  = rule1Points s + (if isAlnum (byte c) then 1 else 0).
Proof.
  unfold rule1Points, len_slice. simpl regexp.FindAllString.
  rewrite orb_false_r, orb_assoc. fold (isAlnum (byte c)).
  destruct (isAlnum (byte c)); simpl length; lia.
Qed.

(** X8: rule 1 gives one point per byte of the retailer name that is an
    ASCII letter or digit and none for any other byte: the contribution of a
    text is the sum of those of its parts, it lies between 0 and the length
    of the name, and it is 0 for a name made of other bytes only (spaces,
    punctuation, bytes of characters outside ASCII). *)
Theorem rule1_counts_letters_and_digits (a b : string) :
  rule1Points (a +:+ b) = rule1Points a + rule1Points b
  /\ 0 <= rule1Points a <= len a
  /\ (forallb (fun c => negb (isAlnum c)) (bytes a) = true <-> rule1Points a = 0)
  /\ (forallb isAlnum (bytes a) = true <-> rule1Points a = len a).
Proof.
  assert (B : forall s, 0 <= rule1Points s <= len s).
  { induction s as [|c s IH]; [by (compute; split; discriminate)|].
    rewrite rule1Points_String. unfold len in *. simpl String.length.
    destruct (isAlnum (byte c)); lia. }
  split; [|split; [apply B|split]].
  - induction a as [|c a IH]; [reflexivity|].
    change (String c a +:+ b) with (String c (a +:+ b)).
    rewrite !rule1Points_String, IH. lia.
  - induction a as [|c a IH]; [by split|].
    rewrite rule1Points_String. simpl. pose proof (B a).
    destruct (isAlnum (byte c)); simpl; [split; [discriminate|lia]|].
    rewrite IH. split; lia.
  - induction a as [|c a IH]; [by split|].
    rewrite rule1Points_String. simpl. pose proof (B a).
    unfold len in *. simpl String.length.
    destruct (isAlnum (byte c)); simpl; [|split; [discriminate|lia]].
    rewrite IH. split; lia.
Qed.

Lemma rule5Exact_Permutation items items' :
  Permutation items items' -> rule5Exact items = rule5Exact items'.
Proof. induction 1; simpl; lia. Qed.

(** X9: the score does not depend on the order of the items: two receipts
    that differ by a permutation of their items have the same score. *)
Theorem score_ignores_item_order
    (receipt : Receipt) (items : list Item) (w w' : World) :
  Permutation (Items receipt) items ->
  fst (calculatePoints (withItems receipt items) w')
  = fst (calculatePoints receipt w).
Proof.
  intros P. rewrite !calculatePoints_fst. unfold exactScore. simpl.
  rewrite <- (rule5Exact_Permutation _ _ P).
  unfold rule4Exact, len_slice. by rewrite <- (Permutation_length P).
Qed.

Lemma score_ignores_item_order_witness :
  fst (calculatePoints (withItems targetReceipt (rev (Items targetReceipt))) initial)
  = fst (calculatePoints targetReceipt initial).
Proof.
  apply score_ignores_item_order. apply Permutation_rev.
Defined.

(** X10: what one more item is worth: appending an item to a receipt
    changes the score by the contribution of the item under rule 5, plus 5
    when the item completes a pair, that is when the number of items was
    odd (all in 64-bit arithmetic). *)
Theorem score_of_one_more_item (receipt : Receipt) (item : Item) (w w' : World) :
  fst (calculatePoints (withItems receipt (Items receipt ++ [item])) w')
  = wrap64 (fst (calculatePoints receipt w)
            + itemPoints item
            + (if Z.odd (len_slice (Items receipt)) then 5 else 0)).
Proof.
  rewrite !calculatePoints_fst. unfold exactScore. simpl.
  rewrite rule5Exact_app. simpl rule5Exact.
  assert (E : rule4Exact (Items receipt ++ [item])
              = rule4Exact (Items receipt)
                + (if Z.odd (len_slice (Items receipt)) then 5 else 0)).
  { unfold rule4Exact, len_slice. rewrite length_app. simpl length.
    set (n := length (Items receipt)).
    replace (Z.of_nat (n + 1)) with (Z.of_nat n + 1) by lia.
    rewrite !Z.quot_div_nonneg by lia.
    destruct (Z.odd (Z.of_nat n)) eqn:O.
    - apply Z.odd_spec in O. destruct O as [m O]. rewrite O.
      replace (2 * m + 1 + 1) with ((m + 1) * 2) by lia.
      rewrite Z.div_mul by lia.
      replace (2 * m + 1) with (1 + m * 2) by lia.
      rewrite Z.div_add by lia. change (1 / 2) with 0. lia.
    - rewrite <- Z.negb_even in O. apply negb_false_iff in O.
      apply Z.even_spec in O. destruct O as [m O]. rewrite O.
      replace (2 * m + 1) with (1 + m * 2) by lia.
      rewrite Z.div_add by lia. change (1 / 2) with 0.
      replace (2 * m) with (m * 2) by lia. rewrite Z.div_mul by lia. lia. }
  rewrite E. wrap64_eq.
Qed.

(** X11: when the purchase time does not parse, the error is dropped and the
    zero [Time] is used, whose hour is 0; rule 8 then contributes nothing. *)
Theorem unparsable_time_earns_nothing (receipt : Receipt) (w : World) :
  snd (time.Parse time.layoutTime (PurchaseTime receipt)) <> None ->
  fst (time.Parse time.layoutTime (PurchaseTime receipt)) = time.zeroTime
  /\ rule8Points (PurchaseTime receipt) = 0
  /\ fst (calculatePoints receipt w)
     = wrap64 (rule1Points (Retailer receipt) + rule2Points (Total receipt)
               + rule3Points (Total receipt) + rule4Exact (Items receipt)
               + rule5Exact (Items receipt) + rule7Points (PurchaseDate receipt))
  /\ In (mkLine "Rule 8: %d points for purchase time (%s)\n"
           [ArgInt 0; ArgString (PurchaseTime receipt)])
        (stdout (snd (calculatePoints receipt w))).
Proof.
  intros H. pose proof (Parse_error _ _ H) as Z0.
  assert (E : rule8Points (PurchaseTime receipt) = 0).
  { unfold rule8Points. rewrite Z0. reflexivity. }
  split; [exact Z0|]. split; [exact E|]. split.
  - rewrite calculatePoints_fst. unfold exactScore. rewrite E. f_equal. lia.
  - rewrite calculatePoints_stdout. unfold logOf. rewrite E.
    rewrite !in_app_iff. right. right. simpl. auto.
Qed.

Lemma unparsable_time_earns_nothing_witness :
  rule8Points (PurchaseTime (mkReceipt "Target" "2022-01-02" "2:33 PM" [] "1.10")) = 0.
Proof.
  exact (proj1 (proj2 (unparsable_time_earns_nothing
           (mkReceipt "Target" "2022-01-02" "2:33 PM" [] "1.10") initial
           ltac:(vm_compute; discriminate)))).
Defined.

Lemma rule8Points_clock_witness :
  clock 15 59 = "15:59"%string
  /\ snd (time.Parse time.layoutTime (clock 15 59)) = None
  /\ time.Hour (fst (time.Parse time.layoutTime (clock 15 59))) = 15
  /\ time.Minute (fst (time.Parse time.layoutTime (clock 15 59))) = 59
  /\ rule8Points (clock 15 59) = (if (15 =? 14) || (15 =? 15) then 10 else 0).
Proof.
  split; [reflexivity|].
  apply (rule8Points_clock 15 59); lia.
Defined.

(** ** Further properties: dates *)

Lemma below_spec n : forall i f,
  below n i f = true -> forall k, i <= k < i + Z.of_nat n -> f k = true.
Proof.
  induction n as [|n IH]; intros i f H k Hk; [lia|].
  simpl in H. apply andb_true_iff in H. destruct H as [H0 H].
  destruct (Z.eq_dec k i) as [->|Hne]; [exact H0|].
  apply (IH (i + 1) f H). lia.
Qed.

(** A year is [400 n + 100 a + 4 b + c + 1], the way [daysSinceEpoch] and
    [absDate] count cycles of 400, 100 and 4 years; the days before it and
    whether it is a leap year, in these terms. *)
Lemma daysSinceEpoch_parts n a b c :
  0 <= a <= 3 -> 0 <= b <= 24 -> 0 <= c <= 3 ->
  time.daysSinceEpoch (400 * n + 100 * a + 4 * b + c + 1)
  = 146097 * n + 36524 * a + 1461 * b + 365 * c.
Proof.
  intros Ha Hb Hc. unfold time.daysSinceEpoch.
  change time.daysPer400Years with 146097.
  change time.daysPer100Years with 36524.
  change time.daysPer4Years with 1461.
  cbv zeta.
  replace (400 * n + 100 * a + 4 * b + c + 1 - 1) with (400 * n + 100 * a + 4 * b + c) by lia.
  assert (E1 : (400 * n + 100 * a + 4 * b + c) / 400 = n)
    by (Z.to_euclidean_division_equations; lia).
  rewrite E1.
  replace (400 * n + 100 * a + 4 * b + c - 400 * n) with (100 * a + 4 * b + c) by lia.
  assert (E2 : (100 * a + 4 * b + c) / 100 = a)
    by (Z.to_euclidean_division_equations; lia).
  rewrite E2.
  replace (100 * a + 4 * b + c - 100 * a) with (4 * b + c) by lia.
  assert (E3 : (4 * b + c) / 4 = b)
    by (Z.to_euclidean_division_equations; lia).
  rewrite E3. lia.
Qed.

Lemma isLeap_parts n a b c :
  0 <= a <= 3 -> 0 <= b <= 24 -> 0 <= c <= 3 ->
  time.isLeap (400 * n + 100 * a + 4 * b + c + 1)
  = (c =? 3) && (negb (b =? 24) || (a =? 3)).
Proof.
  intros Ha Hb Hc. unfold time.isLeap.
  set (y := 400 * n + 100 * a + 4 * b + c + 1).
  assert (M4 : y mod 4 = (c + 1) mod 4).
  { unfold y. Z.to_euclidean_division_equations; lia. }
  assert (M100 : y mod 100 = (4 * b + c + 1) mod 100).
  { unfold y. Z.to_euclidean_division_equations; lia. }
  assert (M400 : y mod 400 = (100 * a + 4 * b + c + 1) mod 400).
  { unfold y. Z.to_euclidean_division_equations; lia. }
  rewrite M4, M100, M400.
  destruct (Z.eqb_spec c 3) as [->|Hc3].
  - change ((3 + 1) mod 4 =? 0) with true. simpl andb.
    destruct (Z.eqb_spec b 24) as [->|Hb24]; simpl negb; simpl orb.
    + change ((4 * 24 + 3 + 1) mod 100 =? 0) with true. simpl.
      destruct (Z.eqb_spec a 3) as [->|Ha3]; [reflexivity|].
      apply Z.eqb_neq. Z.to_euclidean_division_equations; lia.
    + replace ((4 * b + 3 + 1) mod 100 =? 0) with false; [reflexivity|].
      symmetry. apply Z.eqb_neq. Z.to_euclidean_division_equations; lia.
  - replace ((c + 1) mod 4 =? 0) with false; [reflexivity|].
    symmetry. apply Z.eqb_neq. Z.to_euclidean_division_equations; lia.
Qed.

Lemma year_parts y :
  exists n a b c, 0 <= a <= 3 /\ 0 <= b <= 24 /\ 0 <= c <= 3
                  /\ y = 400 * n + 100 * a + 4 * b + c + 1.
Proof.
  exists ((y - 1) / 400), ((y - 1) mod 400 / 100),
         ((y - 1) mod 400 mod 100 / 4), ((y - 1) mod 400 mod 100 mod 4).
  Z.to_euclidean_division_equations; lia.
Qed.

(** The day of the year at which [time.Date] puts a day that exists. *)
Lemma yday_range leap m d :
  1 <= m <= 12 ->
  1 <= d <= (if (m =? 2) && leap then 29 else time.daysBefore m - time.daysBefore (m - 1)) ->
  0 <= time.daysBefore (m - 1) + (if leap && (3 <=? m) then 1 else 0) + (d - 1)
    < 365 + (if leap then 1 else 0).
Proof.
  intros Hm Hd.
  assert (M : m = 1 \/ m = 2 \/ m = 3 \/ m = 4 \/ m = 5 \/ m = 6 \/ m = 7
              \/ m = 8 \/ m = 9 \/ m = 10 \/ m = 11 \/ m = 12) by lia.
  unfold time.daysBefore in *.
  destruct leap;
  repeat (destruct M as [->|M]; [simpl in Hd |- *; lia|]); subst;
  simpl in Hd |- *; lia.
Qed.

(** [absDate] finds the year back, and the day of the year: what is left is
    its search of the month. *)
Lemma absDate_Date_parts n a b c m d :
  0 <= a <= 3 -> 0 <= b <= 24 -> 0 <= c <= 3 ->
  1 <= m <= 12 ->
  1 <= d <= time.daysIn m (400 * n + 100 * a + 4 * b + c + 1) ->
  time.absDate (time.Date (400 * n + 100 * a + 4 * b + c + 1) m d 0 0)
  = let year := 400 * n + 100 * a + 4 * b + c + 1 in
    let day := time.daysBefore (m - 1)
               + (if time.isLeap year && (3 <=? m) then 1 else 0) + (d - 1) in
    if time.isLeap year && (day =? 31 + 29 - 1) then (year, 2, 29)
    else
      let day := if time.isLeap year && (31 + 29 - 1 <? day) then day - 1 else day in
      let month := day / 31 in
      let e := time.daysBefore (month + 1) in
      let '(month, begin) :=
        if e <=? day then (month + 1, e) else (month, time.daysBefore month) in
      (year, month + 1, day - begin + 1).
Proof.
  intros Ha Hb Hc Hm Hd. cbv zeta.
  unfold time.daysIn in Hd.
  pose proof (yday_range _ m d Hm Hd) as Hk.
  set (k := time.daysBefore (m - 1)
            + (if time.isLeap (400 * n + 100 * a + 4 * b + c + 1) && (3 <=? m)
               then 1 else 0) + (d - 1)) in *.
  assert (L : 0 <= k /\ (k <= 364 \/ (c = 3 /\ (b <> 24 \/ a = 3) /\ k = 365))).
  { rewrite isLeap_parts in Hk by assumption.
    destruct (Z.eqb_spec c 3); destruct (Z.eqb_spec b 24); destruct (Z.eqb_spec a 3);
    simpl in Hk; lia. }
  clear Hk Hd.
  unfold time.absDate, time.Date.
  rewrite daysSinceEpoch_parts by assumption. cbv zeta.
  set (year := 400 * n + 100 * a + 4 * b + c + 1) in *.
  set (D := 146097 * n + 36524 * a + 1461 * b + 365 * c + k).
  replace (time.sec _ / time.secondsPerDay) with D.
  2:{ simpl time.sec. change time.secondsPerDay with 86400.
      change time.secondsPerHour with 3600. change time.secondsPerMinute with 60.
      replace (_ + _ + _) with (D * 86400).
      - symmetry. apply Z.div_mul. lia.
      - unfold D, k. destruct (time.isLeap year && (3 <=? m)); lia. }
  change time.daysPer400Years with 146097.
  change time.daysPer100Years with 36524.
  change time.daysPer4Years with 1461.
  rewrite !Z.shiftr_div_pow2 by lia. change (2 ^ 2) with 4.
  assert (E0 : D / 146097 = n)
    by (unfold D; Z.to_euclidean_division_equations; lia).
  rewrite E0.
  replace (D - 146097 * n) with (36524 * a + 1461 * b + 365 * c + k) by (unfold D; lia).
  assert (E1 : (36524 * a + 1461 * b + 365 * c + k) / 36524
               - (36524 * a + 1461 * b + 365 * c + k) / 36524 / 4 = a)
    by (Z.to_euclidean_division_equations; lia).
  rewrite E1.
  replace (36524 * a + 1461 * b + 365 * c + k - 36524 * a)
    with (1461 * b + 365 * c + k) by lia.
  assert (E2 : (1461 * b + 365 * c + k) / 1461 = b)
    by (Z.to_euclidean_division_equations; lia).
  rewrite E2.
  replace (1461 * b + 365 * c + k - 1461 * b) with (365 * c + k) by lia.
  assert (E3 : (365 * c + k) / 365 - (365 * c + k) / 365 / 4 = c)
    by (Z.to_euclidean_division_equations; lia).
  rewrite E3.
  replace (365 * c + k - 365 * c) with k by lia.
  reflexivity.
Qed.

(** Every day of year 1, which has 365 days, and of year 4, which has 366,
    converted to an instant and back. *)
Lemma two_years_checked :
  below 12 1 (fun m => below 31 1 (fun d =>
    ((time.daysIn m 1 <? d)
     || (let '(y', m', d') := time.absDate (time.Date 1 m d 0 0) in
         (y' =? 1) && (m' =? m) && (d' =? d)))
    && ((time.daysIn m 4 <? d)
        || (let '(y', m', d') := time.absDate (time.Date 4 m d 0 0) in
            (y' =? 4) && (m' =? m) && (d' =? d))))) = true.
Proof. vm_compute. reflexivity. Qed.

Lemma daysIn_le_31 m y d : 1 <= m <= 12 -> d <= time.daysIn m y -> d <= 31.
Proof.
  intros Hm Hd. unfold time.daysIn, time.daysBefore in Hd.
  assert (M : m = 1 \/ m = 2 \/ m = 3 \/ m = 4 \/ m = 5 \/ m = 6 \/ m = 7
              \/ m = 8 \/ m = 9 \/ m = 10 \/ m = 11 \/ m = 12) by lia.
  destruct (time.isLeap y);
  repeat (destruct M as [->|M]; [simpl in Hd; lia|]); subst; simpl in Hd; lia.
Qed.

(** The calendar of [time.Date] and that of [absDate] agree on every day of
    every year: the year by arithmetic, the month and the day as in the year
    1 or the year 4, which are checked day by day. *)
Lemma absDate_Date y m d :
  1 <= m <= 12 -> 1 <= d <= time.daysIn m y ->
  time.absDate (time.Date y m d 0 0) = (y, m, d).
Proof.
  intros Hm Hd.
  pose proof (daysIn_le_31 m y d Hm (proj2 Hd)) as Hd31.
  pose proof (below_spec _ _ _ two_years_checked m ltac:(lia)) as C. cbv beta in C.
  pose proof (below_spec _ _ _ C d ltac:(lia)) as C'. cbv beta in C'. clear C.
  apply andb_true_iff in C'. destruct C' as [C1 C4].
  destruct (year_parts y) as (n & a & b & c & Ha & Hb & Hc & ->).
  rewrite absDate_Date_parts by assumption. cbv zeta.
  set (year := 400 * n + 100 * a + 4 * b + c + 1) in *.
  unfold time.daysIn in Hd.
  destruct (time.isLeap year) eqn:Leap.
  - apply orb_true_iff in C4. destruct C4 as [C4|C4].
    { apply Z.ltb_lt in C4. unfold time.daysIn in C4.
      change (time.isLeap 4) with true in C4. lia. }
    pose proof (absDate_Date_parts 0 0 0 3 m d ltac:(lia) ltac:(lia) ltac:(lia) Hm Hd)
      as P.
    cbv zeta in P. change (400 * 0 + 100 * 0 + 4 * 0 + 3 + 1) with 4 in P.
    change (time.isLeap 4) with true in P. rewrite P in C4. clear P.
    revert C4.
    destruct (true && (_ =? 31 + 29 - 1)).
    { cbv beta iota. rewrite !andb_true_iff, !Z.eqb_eq. intros [[_ E1] E2]; congruence. }
    destruct (true && (31 + 29 - 1 <? _)); destruct (_ <=? _);
    cbv beta iota; rewrite !andb_true_iff, !Z.eqb_eq; intros [[_ E1] E2]; congruence.
  - apply orb_true_iff in C1. destruct C1 as [C1|C1].
    { apply Z.ltb_lt in C1. unfold time.daysIn in C1.
      change (time.isLeap 1) with false in C1. lia. }
    pose proof (absDate_Date_parts 0 0 0 0 m d ltac:(lia) ltac:(lia) ltac:(lia) Hm Hd)
      as P.
    cbv zeta in P. change (400 * 0 + 100 * 0 + 4 * 0 + 0 + 1) with 1 in P.
    change (time.isLeap 1) with false in P. rewrite P in C1. clear P.
    revert C1.
    destruct (false && (_ =? 31 + 29 - 1)).
    { cbv beta iota. rewrite !andb_true_iff, !Z.eqb_eq. intros [[_ E1] E2]; congruence. }
    destruct (false && (31 + 29 - 1 <? _)); destruct (_ <=? _);
    cbv beta iota; rewrite !andb_true_iff, !Z.eqb_eq; intros [[_ E1] E2]; congruence.
Qed.

Lemma byte_digit k : 0 <= k <= 9 -> byte (digit k) = 48 + k.
Proof.
  intros H.
  assert (K : k = 0 \/ k = 1 \/ k = 2 \/ k = 3 \/ k = 4 \/ k = 5 \/ k = 6
              \/ k = 7 \/ k = 8 \/ k = 9) by lia.
  repeat (destruct K as [->|K]; [reflexivity|]). by subst.
Qed.

Lemma isDigit_digit k : 0 <= k <= 9 -> time.isDigit (48 + k) = true.
Proof.
  intros H. unfold time.isDigit, between.
  apply andb_true_iff. split; apply Z.leb_le; lia.
Qed.

Lemma bytes_dateText y m d :
  0 <= y <= 9999 -> 0 <= m <= 99 -> 0 <= d <= 99 ->
  bytes (dateText y m d)
  = [48 + y / 1000; 48 + y / 100 mod 10; 48 + y / 10 mod 10; 48 + y mod 10; 45;
     48 + m / 10; 48 + m mod 10; 45; 48 + d / 10; 48 + d mod 10].
Proof.
  intros Hy Hm Hd. unfold dateText, fourDigits, twoDigits, bytes.
  fold (digit (m / 10)) (digit (m mod 10)) (digit (d / 10)) (digit (d mod 10)).
  cbv beta iota fix delta [String.append list_ascii_of_string map].
  change (byte "-") with 45.
  rewrite !byte_digit; [reflexivity|..]; Z.to_euclidean_division_equations; lia.
Qed.

Lemma Parse_dateText y m d :
  0 <= y <= 9999 -> 1 <= m <= 12 -> 1 <= d <= time.daysIn m y ->
  time.Parse time.layoutDate (dateText y m d) = (time.Date y m d 0 0, None).
Proof.
  intros Hy Hm Hd.
  pose proof (daysIn_le_31 m y d Hm (proj2 Hd)).
  unfold time.Parse. rewrite bytes_dateText by lia.
  unfold time.layoutDate. cbn [time.parseChunks time.getnum].
  rewrite !isDigit_digit by (Z.to_euclidean_division_equations; lia).
  cbn [andb negb]. change (45 =? 45) with true. cbv iota.
  rewrite !Z.add_simpl_l.
  replace (m / 10 * 10 + m mod 10) with m
    by (Z.to_euclidean_division_equations; lia).
  replace ((m <=? 0) || (12 <? m)) with false
    by (symmetry; apply orb_false_iff; split;
        [apply Z.leb_gt | apply Z.ltb_ge]; lia).
  cbn [time.getnum].
  rewrite !isDigit_digit by (Z.to_euclidean_division_equations; lia).
  cbn [andb negb time.parseChunks].
  rewrite !Z.add_simpl_l.
  replace (d / 10 * 10 + d mod 10) with d
    by (Z.to_euclidean_division_equations; lia).
  replace (y / 1000 * 1000 + y / 100 mod 10 * 100 + y / 10 mod 10 * 10 + y mod 10)
    with y by (Z.to_euclidean_division_equations; lia).
  cbn [time.year time.month time.day time.hour time.min time.noFields].
  replace (m <? 0) with false by (symmetry; apply Z.ltb_ge; lia).
  replace (d <? 0) with false by (symmetry; apply Z.ltb_ge; lia).
  replace ((d <? 1) || (time.daysIn m y <? d)) with false
    by (symmetry; apply orb_false_iff; split; apply Z.ltb_ge; lia).
  reflexivity.
Qed.

(** X12: a purchase date that is written [YYYY-MM-DD] and names a day that
    exists parses without error to that day, and rule 7 contributes 6 points
    exactly when the day of the month is odd. *)
Theorem rule7_odd_day_of_valid_date (y m d : Z) :
  0 <= y <= 9999 -> 1 <= m <= 12 -> 1 <= d <= time.daysIn m y ->
  snd (time.Parse time.layoutDate (dateText y m d)) = None
  /\ time.absDate (fst (time.Parse time.layoutDate (dateText y m d))) = (y, m, d)
  /\ rule7Points (dateText y m d) = (if Z.odd d then 6 else 0).
Proof.
  intros Hy Hm Hd.
  pose proof (Parse_dateText y m d Hy Hm Hd) as P.
  pose proof (absDate_Date y m d Hm Hd) as A.
  unfold rule7Points, time.Day. rewrite P. simpl fst. simpl snd. rewrite A.
  split; [reflexivity|]. split; [reflexivity|]. simpl snd.
  rewrite Z.rem_mod_nonneg by lia.
  rewrite <- Z.bit0_mod, Z.bit0_odd. by destruct (Z.odd d).
Qed.

Lemma rule7_odd_day_of_valid_date_witness :
  rule7Points (dateText 2024 2 29) = (if Z.odd 29 then 6 else 0)
  /\ dateText 2024 2 29 = "2024-02-29"%string.
Proof.
  split; [|reflexivity].
  apply (rule7_odd_day_of_valid_date 2024 2 29); [lia | lia | vm_compute; split; discriminate].
Defined.

(** ** Further properties: amounts with two decimals *)

(** Every amount from 0.00 to 99.99: it parses; the text ends with [.00]
    when the cents are 0; the number is a multiple of 0.25 when the cents are
    0, 25, 50 or 75; a fifth of it, rounded up and converted, is the fifth
    of the amount in cents, rounded up. *)
Lemma amounts_checked :
  below 100 0 (fun dollars => below 100 0 (fun cents =>
    let text := amount dollars cents in
    let '(f, err) := strconv.ParseFloat text in
    match err with None => true | Some _ => false end
    && Bool.eqb (strings.HasSuffix text ".00") (cents =? 0)
    && Bool.eqb (SFeqb (math.Mod f f0_25) f0) (cents mod 25 =? 0)
    && (int_of_float64 (math.Ceil (SFmul strconv.prec strconv.emax f f0_2))
        =? (100 * dollars + cents + 499) / 500))) = true.
Proof. vm_cast_no_check (eq_refl true). Qed.

Lemma amount_checked dollars cents :
  0 <= dollars < 100 -> 0 <= cents < 100 ->
  snd (strconv.ParseFloat (amount dollars cents)) = None
  /\ strings.HasSuffix (amount dollars cents) ".00" = (cents =? 0)
  /\ SFeqb (math.Mod (fst (strconv.ParseFloat (amount dollars cents))) f0_25) f0
     = (cents mod 25 =? 0)
  /\ int_of_float64
       (math.Ceil (SFmul strconv.prec strconv.emax
                         (fst (strconv.ParseFloat (amount dollars cents))) f0_2))
     = (100 * dollars + cents + 499) / 500.
Proof.
  intros Hd Hc.
  pose proof (below_spec _ _ _ amounts_checked dollars ltac:(lia)) as C.
  cbv beta in C.
  pose proof (below_spec _ _ _ C cents ltac:(lia)) as C'. cbv beta zeta in C'.
  destruct (strconv.ParseFloat (amount dollars cents)) as [f err].
  rewrite !andb_true_iff in C'. destruct C' as [[[C1 C2] C3] C4].
  apply eqb_prop in C2, C3. apply Z.eqb_eq in C4.
  destruct err; [discriminate|]. auto.
Qed.

(** X13: for every total from 0.00 to 99.99 written with two decimals,
    floating point plays no trick: the total parses without error, rule 2
    contributes 50 points exactly when the cents are 00, and rule 3
    contributes 25 points exactly when the cents are 00, 25, 50 or 75. *)
Theorem rules_2_and_3_on_two_decimals (dollars cents : Z) :
  0 <= dollars < 100 -> 0 <= cents < 100 ->
  snd (strconv.ParseFloat (amount dollars cents)) = None
  /\ rule2Points (amount dollars cents) = (if cents =? 0 then 50 else 0)
  /\ rule3Points (amount dollars cents) = (if cents mod 25 =? 0 then 25 else 0).
Proof.
  intros Hd Hc.
  destruct (amount_checked dollars cents Hd Hc) as (P & S & M & _).
  unfold rule2Points, rule3Points, multipleOfQuarter. by rewrite S, M.
Qed.

Lemma rules_2_and_3_on_two_decimals_witness :
  amount 35 0 = "35.00"%string
  /\ rule2Points (amount 35 0) = (if 0 =? 0 then 50 else 0)
  /\ rule3Points (amount 35 0) = (if 0 mod 25 =? 0 then 25 else 0).
Proof.
  split; [reflexivity|].
  apply (rules_2_and_3_on_two_decimals 35 0); lia.
Defined.

(** X14: for every price from 0.00 to 99.99 written with two decimals, the
    bonus of rule 5, [int(math.Ceil(price * 0.2))] in floating point, is
    exactly a fifth of the price rounded up to the next integer; an item
    with such a price never contributes a negative amount. *)
Theorem rule5_bonus_on_two_decimals (description : string) (dollars cents : Z) :
  0 <= dollars < 100 -> 0 <= cents < 100 ->
  let item := mkItem description (amount dollars cents) in
  bonus item = (100 * dollars + cents + 499) / 500
  /\ 0 <= itemPoints item <= 20.
Proof.
  intros Hd Hc. cbv zeta.
  destruct (amount_checked dollars cents Hd Hc) as (_ & _ & _ & B).
  assert (E : bonus (mkItem description (amount dollars cents))
              = (100 * dollars + cents + 499) / 500) by exact B.
  split; [exact E|]. unfold itemPoints. rewrite E.
  destruct (_ =? _); Z.to_euclidean_division_equations; lia.
Qed.

Lemma rule5_bonus_on_two_decimals_witness :
  amount 12 25 = "12.25"%string
  /\ bonus (mkItem "Emils Cheese Pizza" (amount 12 25)) = (100 * 12 + 25 + 499) / 500.
Proof.
  split; [reflexivity|].
  apply (rule5_bonus_on_two_decimals "Emils Cheese Pizza" 12 25); lia.
Defined.

(** ** Further properties: blanks around a description *)

Lemma bytes_append a b : bytes (a +:+ b) = bytes a ++ bytes b.
Proof.
  unfold bytes. induction a as [|c a IH]; [reflexivity|].
  change (String c a +:+ b) with (String c (a +:+ b)).
  simpl. by rewrite IH.
Qed.

Lemma string_of_bytes_bytes s : strings.string_of_bytes (bytes s) = s.
Proof.
  unfold strings.string_of_bytes, bytes.
  induction s as [|c s IH]; [reflexivity|].
  simpl. rewrite IH. unfold byte. by rewrite N2Z.id, ascii_N_embedding.
Qed.

Lemma asciiSpace_ascii c : strings.asciiSpace c = true -> (utf8.RuneSelf <=? c) = false.
Proof.
  unfold strings.asciiSpace, utf8.RuneSelf.
  rewrite !orb_true_iff, !Z.eqb_eq, Z.leb_gt. lia.
Qed.

Lemma trimSpaceStart_blank p l :
  forallb strings.asciiSpace p = true ->
  strings.trimSpaceStart (p ++ l) = strings.trimSpaceStart l.
Proof.
  induction p as [|c p IH]; intros H; [reflexivity|].
  simpl in H. apply andb_true_iff in H. destruct H as [Hc Hp].
  simpl. rewrite (asciiSpace_ascii c Hc), Hc. by apply IH.
Qed.

Lemma trimSpaceStop_blank p r :
  forallb strings.asciiSpace p = true ->
  strings.trimSpaceStop (p ++ r) = strings.trimSpaceStop r.
Proof.
  induction p as [|c p IH]; intros H; [reflexivity|].
  simpl in H. apply andb_true_iff in H. destruct H as [Hc Hp].
  simpl. rewrite (asciiSpace_ascii c Hc), Hc. by apply IH.
Qed.

Lemma forallb_rev {A} (f : A -> bool) l : forallb f (rev l) = forallb f l.
Proof.
  induction l as [|x l IH]; [reflexivity|].
  simpl. rewrite forallb_app, IH. simpl. rewrite andb_true_r. apply andb_comm.
Qed.

Lemma TrimSpace_blanks before core after :
  blank before = true -> blank after = true -> solidEnds core = true ->
  strings.TrimSpace (before +:+ core +:+ after) = core.
Proof.
  unfold blank, solidEnds. intros Hb Ha Hc.
  unfold strings.TrimSpace. rewrite !bytes_append.
  rewrite trimSpaceStart_blank by exact Hb.
  destruct (bytes core) as [|c1 l1] eqn:E1; [discriminate|].
  destruct (rev (c1 :: l1)) as [|c2 l2] eqn:E2; [discriminate|].
  rewrite !andb_true_iff, !negb_true_iff, !Z.ltb_lt in Hc.
  destruct Hc as [[[H1 H2] H3] H4].
  change ((c1 :: l1) ++ bytes after) with (c1 :: (l1 ++ bytes after)).
  cbn [strings.trimSpaceStart].
  replace (utf8.RuneSelf <=? c1) with false by (symmetry; apply Z.leb_gt; lia).
  rewrite H2.
  change (c1 :: (l1 ++ bytes after)) with ((c1 :: l1) ++ bytes after).
  rewrite rev_app_distr, E2.
  rewrite trimSpaceStop_blank by (by rewrite forallb_rev).
  cbn [strings.trimSpaceStop].
  replace (utf8.RuneSelf <=? c2) with false by (symmetry; apply Z.leb_gt; lia).
  rewrite H4, <- E2, rev_involutive, <- E1.
  apply string_of_bytes_bytes.
Qed.

Lemma append_empty_r s : s +:+ EmptyString = s.
Proof.
  induction s as [|c s IH]; [reflexivity|].
  change (String c s +:+ EmptyString) with (String c (s +:+ EmptyString)).
  by rewrite IH.
Qed.

(** X15: blanks around a description do not count for rule 5.  When the
    description is a text whose first and last bytes are ASCII and not
    blanks, with ASCII blanks (space, tab, line feed, vertical tab, form
    feed, carriage return) before and after it, [strings.TrimSpace] returns
    that text, and the item contributes what it would without the blanks. *)
Theorem blanks_around_description_ignored
    (before core after price : string) :
  blank before = true -> blank after = true -> solidEnds core = true ->
  strings.TrimSpace (before +:+ core +:+ after) = core
  /\ itemPoints (mkItem (before +:+ core +:+ after) price)
     = itemPoints (mkItem core price).
Proof.
  intros Hb Ha Hc.
  pose proof (TrimSpace_blanks before core after Hb Ha Hc) as T.
  pose proof (TrimSpace_blanks EmptyString core EmptyString eq_refl eq_refl Hc)
    as T0.
  change (EmptyString +:+ core +:+ EmptyString)
    with (core +:+ EmptyString) in T0.
  rewrite append_empty_r in T0.
  split; [exact T|]. unfold itemPoints, bonus.
  cbn [ShortDescription Price]. by rewrite T, T0.
Qed.

Lemma blanks_around_description_ignored_witness :
  ("   " +:+ "Klarbrunn 12-PK 12 FL OZ" +:+ "  ")%string
  = "   Klarbrunn 12-PK 12 FL OZ  "%string
  /\ itemPoints (mkItem ("   " +:+ "Klarbrunn 12-PK 12 FL OZ" +:+ "  ") "12.00")
     = itemPoints (mkItem "Klarbrunn 12-PK 12 FL OZ" "12.00").
Proof.
  split; [reflexivity|].
  apply (proj2 (blanks_around_description_ignored
                  "   " "Klarbrunn 12-PK 12 FL OZ" "  " "12.00"
                  eq_refl eq_refl eq_refl)).
Defined.

(** X16: a description made of ASCII blanks only counts as empty: its
    trimmed length is 0, a multiple of 3, so that the item earns the bonus
    of rule 5 like an item without description. *)
Theorem blank_description_earns_bonus (description price : string) :
  blank description = true ->
  strings.TrimSpace description = EmptyString
  /\ itemPoints (mkItem description price) = bonus (mkItem description price).
Proof.
  unfold blank. intros Hb.
  assert (T : strings.TrimSpace description = EmptyString).
  { unfold strings.TrimSpace.
    rewrite <- (app_nil_r (bytes description)).
    rewrite trimSpaceStart_blank by exact Hb. reflexivity. }
  split; [exact T|]. unfold itemPoints.
  cbn [ShortDescription]. by rewrite T.
Qed.

Lemma blank_description_earns_bonus_witness :
  itemPoints (mkItem "   " "10.00") = bonus (mkItem "   " "10.00")
  /\ bonus (mkItem "   " "10.00") = 2.
Proof.
  split; [|reflexivity].
  apply (proj2 (blank_description_earns_bonus "   " "10.00" eq_refl)).
Defined.

(** ** Further properties: the store never loses an entry *)

(** X17: whatever the calls and the identifiers generated, an identifier
    that is in the store stays in it, in both maps: no call deletes an
    entry. *)
Theorem store_never_shrinks (cs : list call) (w : World) (id : string) :
  (is_Some (points w !! id) -> is_Some (points (serveAll cs w) !! id))
  /\ (is_Some (receipts w !! id) -> is_Some (receipts (serveAll cs w) !! id)).
Proof.
  revert w. induction cs as [|c cs IH]; intros w; [by split|].
  simpl serveAll. destruct (IH (snd (serve c w))) as [IHp IHr].
  rewrite serve_state in *.
  split; intros H.
  - apply IHp. destruct (issued c) as [uuid|], (accepted c); try exact H.
    simpl. destruct (decide (id = uuid)) as [->|Hne].
    + rewrite lookup_insert_eq. eauto.
    + by rewrite lookup_insert_ne.
  - apply IHr. destruct (issued c) as [uuid|], (accepted c); try exact H.
    simpl. destruct (decide (id = uuid)) as [->|Hne].
    + rewrite lookup_insert_eq. eauto.
    + by rewrite lookup_insert_ne.
Qed.

Lemma store_never_shrinks_witness :
  is_Some (points (serveAll exampleCalls
                     (serveAll [Submit "id" (postReceipt marketReceipt)] initial))
             !! "id"%string).
Proof.
  apply (proj1 (store_never_shrinks exampleCalls
                  (serveAll [Submit "id" (postReceipt marketReceipt)] initial)
                  "id")).
  exists 109. reflexivity.
Defined.
